(** * PRBSGenerator (jnoise/prbsgenerator.h)

    A shallow embedding of the pseudo random binary sequence generator of
    libqjackaudio, and the properties of its polynomial shift register.

    Machine model.  [uint32_t] values are integers in [0, 2^32); the
    operations that can leave that range ([<<] and [+]) are wrapped with
    [u32].  [int] values are integers in [-2^31, 2^31); a conversion from
    [uint32_t] to [int] is the two's complement one ([i32]) and [>>] on an
    [int] is the arithmetic shift, which is [Z.shiftr] on [Z] (C++20
    [conv.integral] and [expr.shift]; what the usual compilers have always
    done).  [assert] is active ([NDEBUG] is not defined by the header): a
    failed assertion ends the call with [Aborted].  A [while] or [for] loop
    whose bound is not a counter runs on fuel and ends with [OutOfFuel] when
    the fuel does not suffice. *)

From Stdlib Require Import ZArith NArith List Lia Bool.
Import ListNotations.
Local Open Scope Z_scope.

(** ** Machine integers *)

Definition u32 (z : Z) : Z := z mod 2 ^ 32.

Definition i32 (z : Z) : Z := (z + 2 ^ 31) mod 2 ^ 32 - 2 ^ 31.

(** ** Outcome of a call *)

Inductive result (A : Type) : Type :=
| Done (a : A)
| Aborted
| OutOfFuel.

Arguments Done {A} a.
Arguments Aborted {A}.
Arguments OutOfFuel {A}.

Definition bind {A B : Type} (r : result A) (k : A -> result B) : result B :=
  match r with
  | Done a => k a
  | Aborted => Aborted
  | OutOfFuel => OutOfFuel
  end.

Notation "x <- r ;; k" := (bind r (fun x => k))
  (at level 61, r at next level, right associativity).

(** ** The class *)

Record PRBSGenerator : Type := mkPRBS {
  _stat : Z;
  _poly : Z;
  _mask : Z;
  _hbit : Z;
  _degr : Z
}.

Definition set_stat (g : PRBSGenerator) (s : Z) : PRBSGenerator :=
  {| _stat := s; _poly := _poly g; _mask := _mask g;
     _hbit := _hbit g; _degr := _degr g |}.

(** Some polynomials for maximum length sequences. *)
Definition G7 : Z := 0x00000041.
Definition G32 : Z := 0x80000057.


(** The constructor's initialiser list is
    [_stat (0), _poly (0), _mask (0), _degr (0)]: [_hbit] is not in it, so
    the member keeps whatever the storage of the object held.  That value
    is the argument [junk]. *)
Definition PRBSGenerator_new (junk : Z) : PRBSGenerator :=
  {| _stat := 0; _poly := 0; _mask := 0; _hbit := junk; _degr := 0 |}.

(** [while (_mask < _poly) { _mask = (_mask << 1) | 1; _degr += 1; }] *)
Fixpoint setPoly_loop (fuel : nat) (poly mask degr : Z) : result (Z * Z) :=
  match fuel with
  | O => OutOfFuel
  | S fuel' =>
      if mask <? poly
      then setPoly_loop fuel' poly (Z.lor (u32 (Z.shiftl mask 1)) 1)
                        (i32 (degr + 1))
      else Done (mask, degr)
  end.

Definition setPoly (fuel : nat) (g : PRBSGenerator) (poly : Z)
  : result PRBSGenerator :=
  if poly =? 0 then Aborted else
  md <- setPoly_loop fuel poly 0 0 ;;
  Done {| _stat := fst md; _poly := poly; _mask := fst md;
          _hbit := u32 (Z.shiftr (fst md) 1 + 1); _degr := snd md |}.

Definition setStat (g : PRBSGenerator) (stat : Z) : result PRBSGenerator :=
  if _poly g =? 0 then Aborted else
  let g1 := set_stat g (Z.land stat (_mask g)) in
  if _stat g1 =? 0 then Aborted else Done g1.

Definition step (g : PRBSGenerator) : result (Z * PRBSGenerator) :=
  if _poly g =? 0 then Aborted else
  let bit := i32 (Z.land (_stat g) 1) in
  let s := Z.shiftr (_stat g) 1 in
  let s := if bit =? 0 then s else Z.lxor s (_poly g) in
  Done (bit, set_stat g s).

(** [for (int i = 0; i < _degr; i++)]: [n] is the number of rounds left. *)
Fixpoint sync_forw_loop (n : nat) (poly stat bits : Z) : Z :=
  match n with
  | O => stat
  | S n' =>
      let s := Z.shiftr stat 1 in
      let s := if Z.land bits 1 =? 0 then s else Z.lxor s poly in
      sync_forw_loop n' poly s (Z.shiftr bits 1)
  end.

Definition sync_forw (g : PRBSGenerator) (bits : Z) : result PRBSGenerator :=
  if _poly g =? 0 then Aborted else
  Done (set_stat g
          (sync_forw_loop (Z.to_nat (_degr g)) (_poly g) (_stat g) bits)).

(** [for (int h = _hbit; h; h >>= 1)]: [h] is an [int]; in [bits & h] it is
    converted back to [uint32_t]. *)
Fixpoint sync_back_loop (fuel : nat) (poly bits h stat : Z) : result Z :=
  match fuel with
  | O => OutOfFuel
  | S fuel' =>
      if h =? 0 then Done stat else
      let s := if Z.land bits (u32 h) =? 0 then stat else Z.lxor stat poly in
      let s := u32 (Z.shiftl s 1) in
      sync_back_loop fuel' poly bits (Z.shiftr h 1) s
  end.

Definition sync_back (fuel : nat) (g : PRBSGenerator) (bits : Z)
  : result PRBSGenerator :=
  if _poly g =? 0 then Aborted else
  s <- sync_back_loop fuel (_poly g) bits (i32 (_hbit g)) 0 ;;
  Done (set_stat g (Z.land (Z.lxor s bits) (_mask g))).

(** [b] is an [int]; [(_stat & 1) ^ b] is computed on [uint32_t] and the
    result is stored in an [int]. *)
Definition crc_in (g : PRBSGenerator) (b : Z) : result PRBSGenerator :=
  if _poly g =? 0 then Aborted else
  let bit := i32 (Z.lxor (Z.land (_stat g) 1) (u32 b)) in
  let s := Z.shiftr (_stat g) 1 in
  let s := if bit =? 0 then s else Z.lxor s (_poly g) in
  Done (set_stat g s).

Definition crc_out (g : PRBSGenerator) : result (Z * PRBSGenerator) :=
  if _poly g =? 0 then Aborted else
  let bit := i32 (Z.land (_stat g) 1) in
  Done (bit, set_stat g (Z.shiftr (_stat g) 1)).

Definition stat (g : PRBSGenerator) : Z := _stat g.
Definition poly (g : PRBSGenerator) : Z := _poly g.
Definition mask (g : PRBSGenerator) : Z := _mask g.
Definition hbit (g : PRBSGenerator) : Z := _hbit g.
Definition degr (g : PRBSGenerator) : Z := _degr g.

(** ** Runs of [step] *)

(** [n] calls of [step], with the returned bits in the order of the calls. *)
Fixpoint steps (n : nat) (g : PRBSGenerator)
  : result (list Z * PRBSGenerator) :=
  match n with
  | O => Done ([], g)
  | S n' =>
      r <- step g ;;
      rs <- steps n' (snd r) ;;
      Done (fst r :: fst rs, snd rs)
  end.

(** The bits of [x], least significant first, [n] of them. *)
Definition bits_lsb_first (n : nat) (x : Z) : list Z :=
  map (fun i => Z.b2z (Z.testbit x (Z.of_nat i))) (seq 0 n).

(** [n] calls of [step] with the returned bits dropped; [n] is a binary
    number, the periods at hand are as long as [2^32 - 1]. *)
Definition skip (g : PRBSGenerator) : result PRBSGenerator :=
  r <- step g ;; Done (snd r).

Definition advance (n : N) (g : PRBSGenerator) : result PRBSGenerator :=
  N.iter n (fun r => g' <- r ;; skip g') (Done g).


(** ** Configured registers *)

Definition same_poly (g g' : PRBSGenerator) : Prop :=
  _poly g = _poly g' /\ _mask g = _mask g' /\
  _hbit g = _hbit g' /\ _degr g = _degr g'.

(** A register is configured when its polynomial, mask, high bit and degree
    are those that [setPoly] left for some non-zero 32-bit polynomial, and
    its state lies within the mask. *)
Definition configured (g : PRBSGenerator) : Prop :=
  exists fuel g0 p g1,
    0 < p < 2 ^ 32 /\ setPoly fuel g0 p = Done g1 /\
    same_poly g g1 /\ Z.land (_stat g) (_mask g) = _stat g.

(** What [setPoly] leaves for the polynomial [p]. *)
Definition setPoly_outcome (p : Z) : PRBSGenerator :=
  let k := Z.log2 p + 1 in
  {| _stat := 2 ^ k - 1; _poly := p; _mask := 2 ^ k - 1;
     _hbit := 2 ^ (k - 1); _degr := k |}.

(** The facts about a configured register that the proofs below use. *)
Record params_ok (g : PRBSGenerator) : Prop := {
  ok_poly : 0 < _poly g < 2 ^ 32;
  ok_degr : _degr g = Z.log2 (_poly g) + 1;
  ok_mask : _mask g = 2 ^ _degr g - 1;
  ok_hbit : _hbit g = 2 ^ (_degr g - 1);
  ok_stat : 0 <= _stat g < 2 ^ _degr g
}.

(** The move of the register: shift right, and feed the polynomial back when
    a one has left. *)
Definition next (p s : Z) : Z :=
  Z.lxor (Z.shiftr s 1) (if Z.odd s then p else 0).

(** The register that [setPoly (G7)] leaves, and the one of [setPoly (G32)]. *)
Definition reg7 : PRBSGenerator :=
  {| _stat := 0x7F; _poly := 0x41; _mask := 0x7F; _hbit := 0x40; _degr := 7 |}.

Definition reg32 : PRBSGenerator :=
  {| _stat := 0xFFFFFFFF; _poly := 0x80000057; _mask := 0xFFFFFFFF;
     _hbit := 0x80000000; _degr := 32 |}.

(** The bits that [n] calls of [step] return from the state [s], and the
    state they leave. *)
Fixpoint run_bits (n : nat) (p s : Z) : list Z :=
  match n with
  | O => []
  | S m => Z.b2z (Z.odd s) :: run_bits m p (next p s)
  end.

Fixpoint run_state (n : nat) (p s : Z) : Z :=
  match n with
  | O => s
  | S m => run_state m p (next p s)
  end.

(** The rounds of the loop of [sync_back] for the probe bits
    [2^(n-1), ..., 2, 1], from the state [s]. *)
Fixpoint back_rounds (n : nat) (p x s : Z) : Z :=
  match n with
  | O => s
  | S m =>
      back_rounds m p x
        (u32 (Z.shiftl (if Z.testbit x (Z.of_nat m) then Z.lxor s p else s) 1))
  end.

(** Two integers with the same [n] low bits. *)
Definition agree (n : Z) (a b : Z) : Prop :=
  forall i, 0 <= i < n -> Z.testbit a i = Z.testbit b i.

(** The state that [sync_back] leaves, before the final masking. *)
Definition back_state (n : nat) (p x : Z) : Z :=
  Z.lxor (back_rounds n p x 0) x.

(** ** Long runs of [step]

    The move [next p] is linear for [Z.lxor].  A linear map on the states of
    [d] bits is kept as the list of the images of [1, 2, 4, ..., 2^(d-1)];
    the map of [n] moves is then found by repeated squaring. *)












(** ** Runs of the CRC pair *)

(** [n] calls of [crc_out], with the returned bits in the order of the
    calls. *)
Fixpoint crc_outs (n : nat) (g : PRBSGenerator)
  : result (list Z * PRBSGenerator) :=
  match n with
  | O => Done ([], g)
  | S n' =>
      r <- crc_out g ;;
      rs <- crc_outs n' (snd r) ;;
      Done (fst r :: fst rs, snd rs)
  end.

(** One call of [crc_in] for each bit of the list, in its order. *)
Fixpoint crc_ins (bs : list Z) (g : PRBSGenerator) : result PRBSGenerator :=
  match bs with
  | [] => Done g
  | b :: bs' => g1 <- crc_in g b ;; crc_ins bs' g1
  end.










(** The move of [crc_in] for a bit [b], and the state after a list of
    bits. *)
Definition crc_move (p s b : Z) : Z :=
  Z.lxor (Z.shiftr s 1) (if xorb (Z.odd s) (b =? 1) then p else 0).

Fixpoint crc_run (p s : Z) (bs : list Z) : Z :=
  match bs with
  | [] => s
  | b :: bs' => crc_run p (crc_move p s b) bs'
  end.

Definition is_bit (b : Z) : Prop := b = 0 \/ b = 1.

(** Two messages added bit by bit. *)
Definition xor_lists (a b : list Z) : list Z :=
  map (fun ab => Z.lxor (fst ab) (snd ab)) (combine a b).

Example setPoly_G7 :
  setPoly 8 (PRBSGenerator_new 0) G7 =
  Done {| _stat := 0x7F; _poly := 0x41; _mask := 0x7F; _hbit := 0x40;
          _degr := 7 |}.
Proof. reflexivity. Qed.

Example setPoly_zero : setPoly 8 (PRBSGenerator_new 0) 0 = Aborted.
Proof. reflexivity. Qed.

Example setPoly_G7_short_of_fuel :
  setPoly 7 (PRBSGenerator_new 0) G7 = OutOfFuel.
Proof. reflexivity. Qed.

Example step_unconfigured : step (PRBSGenerator_new 0) = Aborted.
Proof. reflexivity. Qed.

Example steps_G7_reset :
  steps 8 reg7 = Done ([1; 0; 1; 0; 1; 0; 1; 0], set_stat reg7 0x2A).
Proof. vm_compute. reflexivity. Qed.

Example sync_back_G7 :
  sync_back 8 reg7 0x2A = Done (set_stat reg7 0x7E) /\
  steps 7 (set_stat reg7 0x7E) =
  Done (bits_lsb_first 7 0x2A, set_stat reg7 0x2A).
Proof. split; vm_compute; reflexivity. Qed.

Example sync_forw_G7 : sync_forw reg7 0x2A = Done (set_stat reg7 0x2A).
Proof. vm_compute. reflexivity. Qed.

Example advance_G7_period : advance 127 reg7 = Done reg7.
Proof. vm_compute. reflexivity. Qed.

(** ** Arithmetic of the machine integers *)

Lemma u32_small (z : Z) : 0 <= z < 2 ^ 32 -> u32 z = z.
Proof. intros H. unfold u32. apply Z.mod_small. exact H. Qed.

Lemma i32_small (z : Z) : - 2 ^ 31 <= z < 2 ^ 31 -> i32 z = z.
Proof. intros H. unfold i32. rewrite Z.mod_small; lia. Qed.

Lemma pow2_split (d : Z) : 1 <= d -> 2 ^ d = 2 * 2 ^ (d - 1).
Proof.
  intros H. replace d with (Z.succ (d - 1)) at 1 by lia.
  apply Z.pow_succ_r. lia.
Qed.

Lemma pow2_pos (d : Z) : 0 <= d -> 0 < 2 ^ d.
Proof. intros H. apply Z.pow_pos_nonneg; lia. Qed.

Lemma pow2_le_32 (d : Z) : 0 <= d <= 32 -> 2 ^ d <= 2 ^ 32.
Proof. intros H. apply Z.pow_le_mono_r; lia. Qed.

Lemma land_mask (d s : Z) : 0 <= d -> Z.land s (2 ^ d - 1) = s mod 2 ^ d.
Proof.
  intros H. rewrite Z.sub_1_r, <- Z.ones_equiv. apply Z.land_ones. exact H.
Qed.

Lemma within_mask (d s : Z) :
  0 <= d -> (Z.land s (2 ^ d - 1) = s <-> 0 <= s < 2 ^ d).
Proof.
  intros H. rewrite land_mask by exact H. split.
  - intros E. rewrite <- E. apply Z.mod_pos_bound. apply pow2_pos. exact H.
  - intros B. apply Z.mod_small. exact B.
Qed.

Lemma land_1 (s : Z) : Z.land s 1 = Z.b2z (Z.odd s).
Proof.
  change 1 with (Z.ones 1) at 1. rewrite Z.land_ones by lia.
  rewrite <- Z.bit0_odd. symmetry. apply Z.bit0_mod.
Qed.

Lemma lor_1_even (a : Z) : Z.lor (2 * a) 1 = 2 * a + 1.
Proof.
  rewrite <- Z.lxor_lor.
  - symmetry. apply Z.add_nocarry_lxor. rewrite land_1, Z.odd_mul. reflexivity.
  - rewrite land_1, Z.odd_mul. reflexivity.
Qed.

Lemma bitlen_bounds (p : Z) :
  0 < p < 2 ^ 32 ->
  0 <= Z.log2 p < 32 /\ 2 ^ Z.log2 p <= p < 2 ^ (Z.log2 p + 1).
Proof.
  intros H. assert (L := Z.log2_spec p ltac:(lia)).
  assert (N := Z.log2_nonneg p). split; [split; [exact N|]|].
  - apply Z.log2_lt_pow2; lia.
  - replace (Z.log2 p + 1) with (Z.succ (Z.log2 p)) by lia. exact L.
Qed.

(** ** The loop of [setPoly] *)

Section SetPolyLoop.

Variable p : Z.
Hypothesis p_range : 0 < p < 2 ^ 32.

Lemma setPoly_loop_continue (j : Z) :
  0 <= j < (Z.log2 p + 1) ->
  (2 ^ j - 1 <? p) = true /\
  Z.lor (u32 (Z.shiftl (2 ^ j - 1) 1)) 1 = 2 ^ (j + 1) - 1 /\
  i32 (j + 1) = j + 1.
Proof.
  intros Hj. destruct (bitlen_bounds p p_range) as [[L0 L1] [P0 P1]].
  assert (2 ^ j <= 2 ^ Z.log2 p) by (apply Z.pow_le_mono_r; lia).
  assert (0 < 2 ^ j) by (apply pow2_pos; lia).
  assert (2 ^ (j + 1) <= 2 ^ 32) by (apply pow2_le_32; lia).
  assert (E : 2 ^ (j + 1) = 2 * 2 ^ j)
    by (rewrite (pow2_split (j + 1)) by lia; do 2 f_equal; lia).
  split; [apply Z.ltb_lt; lia|]. split.
  - rewrite Z.shiftl_mul_pow2 by lia. rewrite u32_small by (simpl (2 ^ 1); lia).
    replace ((2 ^ j - 1) * 2 ^ 1) with (2 * (2 ^ j - 1)) by (simpl (2 ^ 1); lia).
    rewrite lor_1_even. lia.
  - apply i32_small. simpl. lia.
Qed.

Lemma setPoly_loop_stop (j : Z) :
  0 <= j -> (2 ^ j - 1 <? p) = false -> j >= (Z.log2 p + 1).
Proof.
  intros Hj Hlt. apply Z.ltb_ge in Hlt.
  destruct (bitlen_bounds p p_range) as [[L0 L1] [P0 P1]].
  destruct (Z_lt_le_dec (Z.log2 p) j) as [G|G]; [lia|].
  assert (2 ^ j <= 2 ^ Z.log2 p) by (apply Z.pow_le_mono_r; lia). lia.
Qed.

Lemma setPoly_loop_exit : (2 ^ (Z.log2 p + 1) - 1 <? p) = false.
Proof.
  destruct (bitlen_bounds p p_range) as [_ [_ P1]]. apply Z.ltb_ge.
  lia.
Qed.

(** Whatever the fuel, a run of the loop that ends has found the bit
    length of the polynomial. *)
Lemma setPoly_loop_result (fuel : nat) :
  forall j md, 0 <= j <= (Z.log2 p + 1) ->
    setPoly_loop fuel p (2 ^ j - 1) j = Done md -> md = (2 ^ (Z.log2 p + 1) - 1, (Z.log2 p + 1)).
Proof.
  induction fuel as [|fuel IH]; intros j md Hj; cbn [setPoly_loop];
    [discriminate|].
  destruct (2 ^ j - 1 <? p) eqn:T.
  - assert (j < (Z.log2 p + 1)).
    { destruct (Z.eq_dec j (Z.log2 p + 1)) as [->|]; [|lia].
      rewrite setPoly_loop_exit in T. discriminate. }
    destruct (setPoly_loop_continue j ltac:(lia)) as (_ & -> & ->).
    apply IH. lia.
  - intros [= <-]. apply setPoly_loop_stop in T; [|lia].
    replace j with (Z.log2 p + 1) by lia. reflexivity.
Qed.

(** The loop ends as soon as the fuel exceeds the number of rounds. *)
Lemma setPoly_loop_ends (fuel : nat) :
  forall j, 0 <= j <= (Z.log2 p + 1) -> (Z.log2 p + 1) - j < Z.of_nat fuel ->
    setPoly_loop fuel p (2 ^ j - 1) j = Done (2 ^ (Z.log2 p + 1) - 1, (Z.log2 p + 1)).
Proof.
  induction fuel as [|fuel IH]; intros j Hj Hf; [lia|].
  cbn [setPoly_loop].
  destruct (Z.eq_dec j (Z.log2 p + 1)) as [->|Hne].
  - rewrite setPoly_loop_exit. reflexivity.
  - destruct (setPoly_loop_continue j ltac:(lia)) as (-> & -> & ->).
    apply IH; lia.
Qed.

End SetPolyLoop.

(** ** What [setPoly] leaves *)

Lemma hbit_no_wrap (k : Z) :
  1 <= k -> Z.shiftr (2 ^ k - 1) 1 + 1 = 2 ^ (k - 1).
Proof.
  intros H. assert (E := pow2_split k ltac:(lia)).
  rewrite Z.shiftr_div_pow2 by lia. change (2 ^ 1) with 2.
  replace ((2 ^ k - 1) / 2) with (2 ^ (k - 1) - 1)
    by (apply Z.div_unique with 1; lia).
  lia.
Qed.

Lemma hbit_of_mask (k : Z) :
  1 <= k <= 32 -> u32 (Z.shiftr (2 ^ k - 1) 1 + 1) = 2 ^ (k - 1).
Proof.
  intros H. rewrite hbit_no_wrap by lia.
  assert (P := pow2_pos (k - 1) ltac:(lia)).
  assert (B : 2 ^ (k - 1) < 2 ^ 32) by (apply Z.pow_lt_mono_r; lia).
  apply u32_small. lia.
Qed.

Lemma setPoly_returns (fuel : nat) (g : PRBSGenerator) (p : Z) (g1 : PRBSGenerator) :
  0 < p < 2 ^ 32 -> setPoly fuel g p = Done g1 -> g1 = setPoly_outcome p.
Proof.
  intros Hp. unfold setPoly.
  destruct (Z.eqb_spec p 0) as [|_]; [lia|].
  destruct (bitlen_bounds p Hp) as [[L0 L1] _].
  destruct (setPoly_loop fuel p 0 0) as [md| |] eqn:E; cbn [bind];
    try discriminate.
  apply (setPoly_loop_result p Hp fuel 0 md ltac:(lia)) in E. subst md.
  intros [= <-]. cbn [fst snd]. unfold setPoly_outcome.
  rewrite hbit_of_mask by lia. reflexivity.
Qed.

Lemma setPoly_ends (fuel : nat) (g : PRBSGenerator) (p : Z) :
  0 < p < 2 ^ 32 -> (33 <= fuel)%nat ->
  setPoly fuel g p = Done (setPoly_outcome p).
Proof.
  intros Hp Hf. unfold setPoly.
  destruct (Z.eqb_spec p 0) as [|_]; [lia|].
  destruct (bitlen_bounds p Hp) as [[L0 L1] _].
  assert (E := setPoly_loop_ends p Hp fuel 0 ltac:(lia) ltac:(lia)).
  change (2 ^ 0 - 1) with 0 in E. rewrite E. cbn [bind fst snd].
  unfold setPoly_outcome. rewrite hbit_of_mask by lia. reflexivity.
Qed.

Lemma configured_params (g : PRBSGenerator) : configured g -> params_ok g.
Proof.
  intros (fuel & g0 & p & g1 & Hp & Hs & (E1 & E2 & E3 & E4) & Hst).
  apply setPoly_returns in Hs; [|exact Hp]. subst g1.
  unfold setPoly_outcome in *. cbn [_poly _mask _hbit _degr] in *.
  destruct (bitlen_bounds p Hp) as [[L0 L1] _].
  rewrite E2 in Hst. apply within_mask in Hst; [|lia].
  constructor; rewrite ?E1, ?E2, ?E3, ?E4; try reflexivity; assumption.
Qed.

Lemma params_configured (g : PRBSGenerator) : params_ok g -> configured g.
Proof.
  intros [Hp Hd Hm Hh Hs].
  exists 33%nat, g, (_poly g), (setPoly_outcome (_poly g)).
  split; [exact Hp|]. split; [apply setPoly_ends; [exact Hp|lia]|].
  destruct (bitlen_bounds _ Hp) as [[L0 L1] _].
  unfold same_poly, setPoly_outcome. cbn [_poly _mask _hbit _degr].
  rewrite <- Hd. repeat split; try assumption.
  rewrite Hm. apply within_mask; [lia|exact Hs].
Qed.

(** Bounds that follow from [params_ok]. *)
Lemma params_bounds (g : PRBSGenerator) :
  params_ok g ->
  1 <= _degr g <= 32 /\ 2 ^ (_degr g - 1) <= _poly g < 2 ^ _degr g /\
  _poly g <> 0.
Proof.
  intros [Hp Hd Hm Hh Hs].
  destruct (bitlen_bounds _ Hp) as [[L0 L1] [P0 P1]].
  rewrite Hd. replace (Z.log2 (_poly g) + 1 - 1) with (Z.log2 (_poly g)) by lia.
  lia.
Qed.

(** ** One call of [step] *)

Lemma step_eq (g : PRBSGenerator) :
  _poly g <> 0 ->
  step g = Done (Z.b2z (Z.odd (_stat g)),
                 set_stat g (next (_poly g) (_stat g))).
Proof.
  intros Hp. unfold step, next.
  destruct (Z.eqb_spec (_poly g) 0) as [|_]; [contradiction|].
  rewrite land_1. destruct (Z.odd (_stat g)); cbn [Z.b2z].
  - reflexivity.
  - rewrite Z.lxor_0_r. reflexivity.
Qed.

Lemma set_stat_same (g : PRBSGenerator) : set_stat g (_stat g) = g.
Proof. destruct g. reflexivity. Qed.

(** ** Runs of [step] *)

Lemma steps_eq (n : nat) :
  forall g, _poly g <> 0 ->
    steps n g =
    Done (run_bits n (_poly g) (_stat g),
          set_stat g (run_state n (_poly g) (_stat g))).
Proof.
  induction n as [|n IH]; intros g Hp; cbn [steps run_bits run_state].
  - rewrite set_stat_same. reflexivity.
  - rewrite step_eq by exact Hp. cbn [bind fst snd].
    rewrite IH by exact Hp. cbn [bind fst snd set_stat _poly _stat].
    reflexivity.
Qed.

Lemma bits_lsb_first_S (n : nat) (x : Z) :
  bits_lsb_first (S n) x =
  Z.b2z (Z.odd x) :: bits_lsb_first n (Z.shiftr x 1).
Proof.
  unfold bits_lsb_first. cbn [seq map]. rewrite Z.bit0_odd. f_equal.
  rewrite <- seq_shift, map_map. apply map_ext. intros i.
  rewrite Z.shiftr_spec by lia. do 2 f_equal. lia.
Qed.

Lemma b2z_inj (a b : bool) : Z.b2z a = Z.b2z b -> a = b.
Proof. destruct a, b; cbn; congruence. Qed.

Lemma testbit_next (p s i : Z) :
  0 <= i ->
  Z.testbit (next p s) i =
  xorb (Z.testbit s (i + 1)) (Z.odd s && Z.testbit p i).
Proof.
  intros Hi. unfold next. rewrite Z.lxor_spec, Z.shiftr_spec by exact Hi.
  destruct (Z.odd s); cbn [andb]; [reflexivity|].
  rewrite Z.testbit_0_l. reflexivity.
Qed.

Lemma agree_odd (n a b : Z) : 0 < n -> agree n a b -> Z.odd a = Z.odd b.
Proof. intros Hn H. rewrite <- !Z.bit0_odd. apply H. lia. Qed.

Lemma agree_next (n p a b : Z) :
  0 <= n -> agree (n + 1) a b -> agree n (next p a) (next p b).
Proof.
  intros Hn H i Hi. rewrite !testbit_next by lia.
  rewrite (agree_odd (n + 1) a b) by (lia || exact H).
  rewrite (H (i + 1)) by lia. reflexivity.
Qed.

Lemma agree_trans (n a b c : Z) : agree n a b -> agree n b c -> agree n a c.
Proof. intros H1 H2 i Hi. rewrite H1, H2 by exact Hi. reflexivity. Qed.

Lemma agree_mod (n a : Z) : 0 <= n -> agree n (a mod 2 ^ n) a.
Proof. intros Hn i Hi. apply Z.mod_pow2_bits_low. lia. Qed.

Lemma agree_eq (n a b : Z) :
  0 <= n -> 0 <= a < 2 ^ n -> 0 <= b < 2 ^ n -> agree n a b -> a = b.
Proof.
  intros Hn Ha Hb H. rewrite <- (Z.mod_small a (2 ^ n)) by exact Ha.
  rewrite <- (Z.mod_small b (2 ^ n)) by exact Hb.
  apply Z.bits_inj'. intros i Hi. rewrite !Z.testbit_mod_pow2 by lia.
  destruct (Z.ltb_spec i n) as [L|L]; [|reflexivity].
  rewrite H by lia. reflexivity.
Qed.

(** ** The loop of [sync_back] *)

Lemma land_pow2_eqb (x j : Z) :
  0 <= j -> (Z.land x (2 ^ j) =? 0) = negb (Z.testbit x j).
Proof.
  intros Hj. destruct (Z.testbit x j) eqn:T; cbn [negb].
  - apply Z.eqb_neq. intros E.
    assert (B : Z.testbit (Z.land x (2 ^ j)) j = true)
      by (rewrite Z.land_spec, T, Z.pow2_bits_true by exact Hj; reflexivity).
    rewrite E, Z.testbit_0_l in B. discriminate.
  - apply Z.eqb_eq. apply Z.bits_inj'. intros i Hi.
    rewrite Z.land_spec, Z.pow2_bits_eqb, Z.testbit_0_l by exact Hj.
    destruct (Z.eqb_spec j i) as [<-|_]; [rewrite T|]; 
      rewrite ?andb_false_r; reflexivity.
Qed.

(** With a probe bit that starts at [2^(n-1)] and [n] at most 31 the loop
    ends after [n] rounds. *)
Lemma sync_back_loop_ends (n : nat) :
  forall fuel p x s, (n <= 31)%nat -> (n < fuel)%nat ->
    sync_back_loop fuel p x (Z.shiftr (2 ^ Z.of_nat n) 1) s =
    Done (back_rounds n p x s).
Proof.
  induction n as [|n IH]; intros fuel p x s Hn Hf;
    (destruct fuel as [|fuel]; [lia|]); cbn [sync_back_loop back_rounds].
  - reflexivity.
  - assert (E : Z.shiftr (2 ^ Z.of_nat (S n)) 1 = 2 ^ Z.of_nat n).
    { rewrite Z.shiftr_div_pow2 by lia. change (2 ^ 1) with 2.
      rewrite (pow2_split (Z.of_nat (S n))) by lia.
      replace (Z.of_nat (S n) - 1) with (Z.of_nat n) by lia.
      rewrite Z.mul_comm. apply Z.div_mul. lia. }
    rewrite E.
    assert (P := pow2_pos (Z.of_nat n) ltac:(lia)).
    assert (B : 2 ^ Z.of_nat n < 2 ^ 32) by (apply Z.pow_lt_mono_r; lia).
    destruct (Z.eqb_spec (2 ^ Z.of_nat n) 0) as [|_]; [lia|].
    rewrite (u32_small (2 ^ Z.of_nat n)) by lia.
    rewrite land_pow2_eqb by lia.
    destruct (Z.testbit x (Z.of_nat n)); cbn [negb]; apply IH; lia.
Qed.

(** With a negative probe bit the loop never ends. *)
Lemma sync_back_loop_negative (fuel : nat) :
  forall p x h s, h < 0 -> sync_back_loop fuel p x h s = OutOfFuel.
Proof.
  induction fuel as [|fuel IH]; intros p x h s Hh; cbn [sync_back_loop];
    [reflexivity|].
  destruct (Z.eqb_spec h 0) as [|_]; [lia|].
  apply IH. apply Z.shiftr_neg. exact Hh.
Qed.

(** The last round of the loop handles bit 0 of the pattern; the rounds
    before it handle the pattern shifted right by one. *)
Lemma back_rounds_last (n : nat) :
  forall p x s,
    back_rounds (S n) p x s =
    u32 (Z.shiftl (if Z.odd x
                   then Z.lxor (back_rounds n p (Z.shiftr x 1) s) p
                   else back_rounds n p (Z.shiftr x 1) s) 1).
Proof.
  induction n as [|n IH]; intros p x s.
  - cbn [back_rounds]. change (Z.of_nat 0) with 0. rewrite Z.bit0_odd.
    reflexivity.
  - change (back_rounds (S (S n)) p x s)
      with (back_rounds (S n) p x
              (u32 (Z.shiftl (if Z.testbit x (Z.of_nat (S n))
                              then Z.lxor s p else s) 1))).
    rewrite IH. cbn [back_rounds]. rewrite Z.shiftr_spec by lia.
    replace (Z.of_nat n + 1) with (Z.of_nat (S n)) by lia. reflexivity.
Qed.

Lemma testbit_u32_shiftl (a i : Z) :
  0 <= i < 32 -> Z.testbit (u32 (Z.shiftl a 1)) i = Z.testbit a (i - 1).
Proof.
  intros Hi. unfold u32. rewrite Z.mod_pow2_bits_low by lia.
  apply Z.shiftl_spec. lia.
Qed.

Lemma back_state_odd (n : nat) (p x : Z) :
  Z.odd (back_state (S n) p x) = Z.odd x.
Proof.
  unfold back_state. rewrite back_rounds_last. rewrite <- !Z.bit0_odd.
  rewrite Z.lxor_spec, testbit_u32_shiftl by lia.
  rewrite Z.testbit_neg_r by lia. reflexivity.
Qed.

Lemma back_state_next (n : nat) (p x : Z) :
  (n <= 31)%nat ->
  agree (Z.of_nat n) (next p (back_state (S n) p x))
        (back_state n p (Z.shiftr x 1)).
Proof.
  intros Hn i Hi. rewrite testbit_next by lia. rewrite back_state_odd.
  unfold back_state. rewrite back_rounds_last.
  rewrite !Z.lxor_spec, testbit_u32_shiftl by lia.
  replace (i + 1 - 1) with i by lia. rewrite Z.shiftr_spec by lia.
  destruct (Z.odd x); cbn [andb]; rewrite ?Z.lxor_spec.
  - destruct (Z.testbit (back_rounds n p (Z.shiftr x 1) 0) i),
      (Z.testbit p i), (Z.testbit x (i + 1)); reflexivity.
  - rewrite xorb_false_r. reflexivity.
Qed.

(** A state that has the [n] low bits of [back_state n p x] returns the [n]
    low bits of [x], the lowest first. *)
Lemma run_bits_back (p : Z) (n : nat) :
  forall x s, (n <= 32)%nat ->
    agree (Z.of_nat n) s (back_state n p x) ->
    run_bits n p s = bits_lsb_first n x.
Proof.
  induction n as [|n IH]; intros x s Hn H; [reflexivity|].
  cbn [run_bits]. rewrite bits_lsb_first_S. f_equal.
  - rewrite (agree_odd (Z.of_nat (S n)) s (back_state (S n) p x))
      by (lia || exact H).
    rewrite back_state_odd. reflexivity.
  - apply IH; [lia|].
    apply agree_trans with (next p (back_state (S n) p x)).
    + apply agree_next; [lia|].
      replace (Z.of_nat n + 1) with (Z.of_nat (S n)) by lia. exact H.
    + apply back_state_next. lia.
Qed.

Lemma run_bits_zero (p : Z) (n : nat) : run_bits n p 0 = bits_lsb_first n 0.
Proof.
  induction n as [|n IH]; [reflexivity|].
  cbn [run_bits]. rewrite bits_lsb_first_S. f_equal. exact IH.
Qed.

Lemma bits_lsb_first_inj (n : nat) (x y : Z) :
  0 <= x < 2 ^ Z.of_nat n -> 0 <= y < 2 ^ Z.of_nat n ->
  bits_lsb_first n x = bits_lsb_first n y -> x = y.
Proof.
  intros Hx Hy E. apply (agree_eq (Z.of_nat n)); try assumption; [lia|].
  intros i Hi. unfold bits_lsb_first in E.
  assert (I : In (Z.to_nat i) (seq 0 n)) by (apply in_seq; lia).
  assert (F := ext_in_map E (Z.to_nat i) I). cbv beta in F.
  rewrite Z2Nat.id in F by lia. apply b2z_inj. exact F.
Qed.

(** The call of [sync_back] on a register of degree at most 31. *)
Lemma sync_back_eq (g : PRBSGenerator) (x : Z) (fuel : nat) :
  params_ok g -> _degr g <= 31 -> (32 <= fuel)%nat ->
  sync_back fuel g x =
  Done (set_stat g (back_state (Z.to_nat (_degr g)) (_poly g) x
                    mod 2 ^ _degr g)).
Proof.
  intros C Hd Hf. destruct (params_bounds g C) as (D & _ & Hp).
  destruct C as [_ _ Hm Hh _]. unfold sync_back.
  destruct (Z.eqb_spec (_poly g) 0) as [|_]; [contradiction|].
  assert (P := pow2_pos (_degr g - 1) ltac:(lia)).
  assert (B : 2 ^ (_degr g - 1) < 2 ^ 31) by (apply Z.pow_lt_mono_r; lia).
  rewrite Hh, i32_small by lia.
  replace (2 ^ (_degr g - 1))
    with (Z.shiftr (2 ^ Z.of_nat (Z.to_nat (_degr g))) 1).
  - rewrite sync_back_loop_ends by lia. cbn [bind].
    rewrite Hm, land_mask by lia. reflexivity.
  - rewrite Z2Nat.id by lia. rewrite Z.shiftr_div_pow2 by lia.
    change (2 ^ 1) with 2. rewrite (pow2_split (_degr g)) by lia.
    rewrite Z.mul_comm. apply Z.div_mul. lia.
Qed.

(** ** The state stays within the mask, and away from zero *)

Lemma lxor_range (n a b : Z) :
  0 <= n -> 0 <= a < 2 ^ n -> 0 <= b < 2 ^ n -> 0 <= Z.lxor a b < 2 ^ n.
Proof.
  intros Hn Ha Hb.
  assert (N : 0 <= Z.lxor a b) by (apply Z.lxor_nonneg; lia).
  split; [exact N|].
  destruct (Z.eq_dec (Z.lxor a b) 0) as [->|Hz]; [apply pow2_pos; exact Hn|].
  apply Z.log2_lt_pow2; [lia|].
  assert (L := Z.log2_lxor a b ltac:(lia) ltac:(lia)).
  assert (La : Z.log2 a < n \/ a = 0).
  { destruct (Z.eq_dec a 0); [right; assumption|left].
    apply Z.log2_lt_pow2; lia. }
  assert (Lb : Z.log2 b < n \/ b = 0).
  { destruct (Z.eq_dec b 0); [right; assumption|left].
    apply Z.log2_lt_pow2; lia. }
  destruct La as [La| ->], Lb as [Lb| ->];
    rewrite ?Z.lxor_0_l, ?Z.lxor_0_r in *; try lia;
    apply Z.log2_lt_pow2; lia.
Qed.

Lemma shiftr1_range (n s : Z) :
  0 <= n -> 0 <= s < 2 ^ n -> 0 <= Z.shiftr s 1 < 2 ^ n.
Proof.
  intros Hn Hs. rewrite Z.shiftr_div_pow2 by lia. change (2 ^ 1) with 2.
  split; [apply Z.div_pos; lia|].
  apply Z.le_lt_trans with s; [|lia]. apply Z.div_le_upper_bound; lia.
Qed.

Lemma next_range (n p s : Z) :
  0 <= n -> 0 <= p < 2 ^ n -> 0 <= s < 2 ^ n -> 0 <= next p s < 2 ^ n.
Proof.
  intros Hn Hp Hs. unfold next. apply lxor_range; [exact Hn| |].
  - apply shiftr1_range; assumption.
  - destruct (Z.odd s); [exact Hp|]. split; [lia|apply pow2_pos; exact Hn].
Qed.

Lemma testbit_above (n s i : Z) :
  0 <= s < 2 ^ n -> n <= i -> Z.testbit s i = false.
Proof.
  intros Hs Hi. destruct (Z.eq_dec s 0) as [->|Hz]; [apply Z.testbit_0_l|].
  apply Z.bits_above_log2; [lia|].
  assert (0 <= n).
  { destruct (Z_lt_le_dec n 0) as [L|L]; [|exact L].
    rewrite Z.pow_neg_r in Hs by exact L. lia. }
  assert (Z.log2 s < n) by (apply Z.log2_lt_pow2; lia). lia.
Qed.

Lemma top_bit (d p : Z) :
  1 <= d -> 2 ^ (d - 1) <= p < 2 ^ d -> Z.testbit p (d - 1) = true.
Proof.
  intros Hd Hp. assert (P := pow2_pos (d - 1) ltac:(lia)).
  replace (d - 1) with (Z.log2 p); [apply Z.bit_log2; lia|].
  apply Z.log2_unique; [lia|]. replace (Z.succ (d - 1)) with d by lia.
  exact Hp.
Qed.

(** A non-zero state within the mask moves to a non-zero state: either a one
    leaves and the top bit of the polynomial enters, or the state is even
    and is halved. *)
Lemma next_nonzero (d p s : Z) :
  1 <= d -> 2 ^ (d - 1) <= p < 2 ^ d -> 0 <= s < 2 ^ d -> s <> 0 ->
  next p s <> 0.
Proof.
  intros Hd Hp Hs Hz E.
  assert (T := testbit_next p s (d - 1) ltac:(lia)).
  rewrite E, Z.testbit_0_l in T. replace (d - 1 + 1) with d in T by lia.
  rewrite (testbit_above d s d) in T by lia.
  rewrite top_bit in T by assumption.
  destruct (Z.odd s) eqn:O; [discriminate|].
  unfold next in E. rewrite O, Z.lxor_0_r in E.
  rewrite Z.shiftr_div_pow2 in E by lia. change (2 ^ 1) with 2 in E.
  assert (M := Z.div_mod s 2 ltac:(lia)).
  rewrite Zmod_odd, O in M. lia.
Qed.

Lemma run_state_range (n : nat) (d p : Z) :
  forall s, 0 <= d -> 0 <= p < 2 ^ d -> 0 <= s < 2 ^ d ->
    0 <= run_state n p s < 2 ^ d.
Proof.
  induction n as [|n IH]; intros s Hd Hp Hs; cbn [run_state]; [exact Hs|].
  apply IH; try assumption. apply next_range; assumption.
Qed.

Lemma run_state_nonzero (n : nat) (d p : Z) :
  forall s, 1 <= d -> 2 ^ (d - 1) <= p < 2 ^ d -> 0 <= s < 2 ^ d -> s <> 0 ->
    run_state n p s <> 0.
Proof.
  induction n as [|n IH]; intros s Hd Hp Hs Hz; cbn [run_state]; [exact Hz|].
  assert (P := pow2_pos (d - 1) ltac:(lia)).
  apply IH; try assumption.
  - apply next_range; lia.
  - apply (next_nonzero d); assumption.
Qed.

(** ** The loop of [sync_forw] *)

(** Driven by the bits that [step] would return, the loop does what the
    calls of [step] do. *)
Lemma sync_forw_loop_follows (p : Z) (n : nat) :
  forall s x, run_bits n p s = bits_lsb_first n x ->
    sync_forw_loop n p s x = run_state n p s.
Proof.
  induction n as [|n IH]; intros s x E; [reflexivity|].
  rewrite bits_lsb_first_S in E. cbn [run_bits] in E.
  injection E as E0 E1. apply b2z_inj in E0.
  cbn [sync_forw_loop run_state]. rewrite land_1, <- E0.
  rewrite <- (IH _ _ E1). f_equal. unfold next.
  destruct (Z.odd s); cbn [Z.b2z Z.eqb]; [reflexivity|].
  rewrite Z.lxor_0_r. reflexivity.
Qed.

(** The state the loop starts from leaves the register bit by bit. *)
Lemma sync_forw_loop_start (p : Z) (n : nat) :
  forall s x,
    sync_forw_loop n p s x =
    Z.lxor (sync_forw_loop n p 0 x) (Z.shiftr s (Z.of_nat n)).
Proof.
  assert (G : forall a b x,
             sync_forw_loop n p (Z.lxor a b) x =
             Z.lxor (sync_forw_loop n p a x) (Z.shiftr b (Z.of_nat n))).
  { induction n as [|n IH]; intros a b x.
    - cbn [sync_forw_loop]. rewrite Z.shiftr_0_r. reflexivity.
    - cbn [sync_forw_loop].
      replace (Z.shiftr b (Z.of_nat (S n)))
        with (Z.shiftr (Z.shiftr b 1) (Z.of_nat n))
        by (rewrite Z.shiftr_shiftr by lia; f_equal; lia).
      rewrite <- IH. f_equal. rewrite Z.shiftr_lxor.
      destruct (Z.land x 1 =? 0); [reflexivity|].
      rewrite !Z.lxor_assoc. f_equal. apply Z.lxor_comm. }
  intros s x. rewrite <- G, Z.lxor_0_l. reflexivity.
Qed.

Lemma sync_forw_loop_any_start (p : Z) (n : nat) (s t x : Z) :
  0 <= s < 2 ^ Z.of_nat n -> 0 <= t < 2 ^ Z.of_nat n ->
  sync_forw_loop n p s x = sync_forw_loop n p t x.
Proof.
  intros Hs Ht. rewrite (sync_forw_loop_start p n s),
    (sync_forw_loop_start p n t).
  rewrite !Z.shiftr_div_pow2, !Z.div_small by lia. reflexivity.
Qed.

(** ** Calls on a configured register *)

Lemma configured_set_stat (g : PRBSGenerator) (s : Z) :
  params_ok g -> 0 <= s < 2 ^ _degr g -> configured (set_stat g s).
Proof.
  intros [Hp Hd Hm Hh _] Hs. apply params_configured.
  constructor; cbn [set_stat _stat _poly _mask _hbit _degr]; assumption.
Qed.

Lemma mask_range (g : PRBSGenerator) (x : Z) :
  params_ok g -> (Z.land x (_mask g) = x <-> 0 <= x < 2 ^ _degr g).
Proof.
  intros C. destruct (params_bounds g C) as (D & _ & _).
  rewrite (ok_mask g C). apply within_mask. lia.
Qed.

(** X3: on a register of degree at most 31, [sync_back (x)] followed by
    [degree] calls of [step] returns the bits of [x], the lowest first. *)
Lemma sync_back_then_steps (g : PRBSGenerator) (x : Z) :
  configured g -> degr g <= 31 -> Z.land x (mask g) = x ->
  exists g1 g2,
    sync_back 32 g x = Done g1 /\
    steps (Z.to_nat (degr g)) g1 =
    Done (bits_lsb_first (Z.to_nat (degr g)) x, g2).
Proof.
  unfold degr, mask. intros C Hd Hx. apply configured_params in C.
  destruct (params_bounds g C) as (D & _ & Hp).
  rewrite sync_back_eq by (assumption || lia).
  eexists _, _. split; [reflexivity|].
  rewrite steps_eq by exact Hp. cbn [set_stat _stat _poly]. f_equal. f_equal.
  apply run_bits_back; [lia|]. rewrite Z2Nat.id by lia.
  apply agree_mod. lia.
Qed.

(** Some state within the mask returns the bits of [x]: the one that the
    rounds of [sync_back] build. *)
Lemma state_before (d : nat) (p x : Z) :
  (d <= 32)%nat ->
  exists s, 0 <= s < 2 ^ Z.of_nat d /\ run_bits d p s = bits_lsb_first d x.
Proof.
  intros Hd. exists (back_state d p x mod 2 ^ Z.of_nat d). split.
  - apply Z.mod_pos_bound. apply pow2_pos. lia.
  - apply run_bits_back; [exact Hd|]. apply agree_mod. lia.
Qed.

Lemma crc_in_eq (g : PRBSGenerator) (b : Z) :
  _poly g <> 0 -> b = 0 \/ b = 1 ->
  crc_in g b =
  Done (set_stat g (Z.lxor (Z.shiftr (_stat g) 1)
                      (if xorb (Z.odd (_stat g)) (b =? 1)
                       then _poly g else 0))).
Proof.
  intros Hp Hb. unfold crc_in.
  destruct (Z.eqb_spec (_poly g) 0) as [|_]; [contradiction|].
  rewrite land_1.
  destruct Hb as [-> | ->], (Z.odd (_stat g)).
  - change (i32 (Z.lxor (Z.b2z true) (u32 0)) =? 0) with false. reflexivity.
  - change (i32 (Z.lxor (Z.b2z false) (u32 0)) =? 0) with true.
    cbn [xorb Z.eqb]. rewrite Z.lxor_0_r. reflexivity.
  - change (i32 (Z.lxor (Z.b2z true) (u32 1)) =? 0) with true.
    cbn [xorb Z.eqb Pos.eqb]. rewrite Z.lxor_0_r. reflexivity.
  - change (i32 (Z.lxor (Z.b2z false) (u32 1)) =? 0) with false. reflexivity.
Qed.

Lemma fed_back_nonzero (d p s : Z) :
  1 <= d -> 2 ^ (d - 1) <= p < 2 ^ d -> 0 <= s < 2 ^ d ->
  Z.lxor (Z.shiftr s 1) p <> 0.
Proof.
  intros Hd Hp Hs E.
  assert (T : Z.testbit (Z.lxor (Z.shiftr s 1) p) (d - 1) = true).
  { rewrite Z.lxor_spec, Z.shiftr_spec by lia.
    replace (d - 1 + 1) with d by lia.
    rewrite (testbit_above d s d), top_bit by (assumption || lia).
    reflexivity. }
  rewrite E, Z.testbit_0_l in T. discriminate.
Qed.

Lemma halved_nonzero (s : Z) : 2 <= s -> Z.shiftr s 1 <> 0.
Proof.
  intros Hs. rewrite Z.shiftr_div_pow2 by lia. change (2 ^ 1) with 2.
  assert (M := Z.div_mod s 2 ltac:(lia)).
  assert (B := Z.mod_pos_bound s 2 ltac:(lia)). lia.
Qed.

(** ** Linear maps on the states *)

Ltac xor_bits :=
  apply Z.bits_inj'; intros ?i ?Hi;
  rewrite ?Z.lxor_spec, ?Z.testbit_0_l;
  repeat match goal with
         | |- context [Z.testbit ?a ?j] => destruct (Z.testbit a j)
         end; reflexivity.

Lemma odd_lxor (a b : Z) : Z.odd (Z.lxor a b) = xorb (Z.odd a) (Z.odd b).
Proof. rewrite <- !Z.bit0_odd. apply Z.lxor_spec. Qed.

Lemma next_zero (p : Z) : next p 0 = 0.
Proof. reflexivity. Qed.




Section Linear.

Variable f : Z -> Z.
Hypothesis f_zero : f 0 = 0.
Hypothesis f_lxor : forall a b, f (Z.lxor a b) = Z.lxor (f a) (f b).




End Linear.






(** ** The times at which a state comes back *)

Section Returns.

Variables p s : Z.






End Returns.

(** ** Primes *)





(** ** Long runs on a register *)




(** States that return the same bits have the same low bits. *)
Lemma run_bits_agree (p : Z) (n : nat) :
  forall a b, run_bits n p a = run_bits n p b -> agree (Z.of_nat n) a b.
Proof.
  induction n as [|n IH]; intros a b E i Hi; [lia|].
  cbn [run_bits] in E. injection E as E0 E1. apply b2z_inj in E0.
  destruct (Z.eq_dec i 0) as [->|Hne].
  - rewrite !Z.bit0_odd. exact E0.
  - assert (T := IH _ _ E1 (i - 1) ltac:(lia)).
    rewrite !testbit_next, E0 in T by lia.
    replace (i - 1 + 1) with i in T by lia.
    destruct (Z.testbit a i), (Z.testbit b i), (Z.odd b),
      (Z.testbit p (i - 1)); cbn in T; congruence.
Qed.




(** ** What the synchronisations read of their argument *)

Lemma shifted_out (d s : Z) : 0 <= d -> 0 <= s < 2 ^ d -> Z.shiftr s d = 0.
Proof.
  intros Hd Hs. rewrite Z.shiftr_div_pow2 by exact Hd.
  apply Z.div_small. exact Hs.
Qed.

Lemma agree_shiftr (n x y : Z) :
  0 <= n -> agree (n + 1) x y -> agree n (Z.shiftr x 1) (Z.shiftr y 1).
Proof.
  intros Hn H i Hi. rewrite !Z.shiftr_spec by lia. apply H. lia.
Qed.

Lemma agree_mod_eq (n a b : Z) :
  0 <= n -> agree n a b -> a mod 2 ^ n = b mod 2 ^ n.
Proof.
  intros Hn H. apply Z.bits_inj'. intros i Hi.
  rewrite !Z.testbit_mod_pow2 by lia.
  destruct (Z.ltb_spec i n) as [L|L]; [|reflexivity].
  rewrite H by lia. reflexivity.
Qed.

Lemma sync_forw_loop_low_bits (p : Z) (n : nat) :
  forall s x y, agree (Z.of_nat n) x y ->
    sync_forw_loop n p s x = sync_forw_loop n p s y.
Proof.
  induction n as [|n IH]; intros s x y H; [reflexivity|].
  cbn [sync_forw_loop]. rewrite !land_1.
  rewrite (agree_odd (Z.of_nat (S n)) x y) by (lia || exact H).
  apply IH. apply agree_shiftr; [lia|].
  replace (Z.of_nat n + 1) with (Z.of_nat (S n)) by lia. exact H.
Qed.

Lemma back_rounds_low_bits (p : Z) (n : nat) :
  forall s x y, agree (Z.of_nat n) x y ->
    back_rounds n p x s = back_rounds n p y s.
Proof.
  induction n as [|n IH]; intros s x y H; [reflexivity|].
  cbn [back_rounds]. rewrite (H (Z.of_nat n)) by lia.
  apply IH. intros i Hi. apply H. lia.
Qed.

Lemma sync_forw_loop_zero (p : Z) (n : nat) :
  forall s, sync_forw_loop n p s 0 = Z.shiftr s (Z.of_nat n).
Proof.
  induction n as [|n IH]; intros s; cbn [sync_forw_loop].
  - rewrite Z.shiftr_0_r. reflexivity.
  - change (Z.land 0 1 =? 0) with true. cbv iota. rewrite Z.shiftr_0_l, IH.
    rewrite Z.shiftr_shiftr by lia. f_equal. lia.
Qed.

Lemma back_rounds_zero (p : Z) (n : nat) : back_rounds n p 0 0 = 0.
Proof.
  induction n as [|n IH]; [reflexivity|].
  cbn [back_rounds]. rewrite Z.testbit_0_l. exact IH.
Qed.

(** The state that the loop of [sync_forw] leaves is zero only for a
    pattern whose [degree] low bits are zero. *)
Lemma sync_forw_state_zero_iff (g : PRBSGenerator) (x : Z) :
  params_ok g ->
  sync_forw_loop (Z.to_nat (_degr g)) (_poly g) (_stat g) x <> 0 <->
  Z.land x (_mask g) <> 0.
Proof.
  intros C. destruct (params_bounds g C) as (D & Hp & Hp0).
  assert (Hs := ok_stat g C).
  assert (P := pow2_pos (_degr g - 1) ltac:(lia)).
  assert (Q := pow2_pos (_degr g) ltac:(lia)).
  set (y := Z.land x (_mask g)).
  assert (Hy : 0 <= y < 2 ^ _degr g).
  { unfold y. rewrite (ok_mask g C), land_mask by lia.
    apply Z.mod_pos_bound. exact Q. }
  assert (A : agree (Z.of_nat (Z.to_nat (_degr g))) x y).
  { rewrite Z2Nat.id by lia. unfold y.
    rewrite (ok_mask g C), land_mask by lia. intros i Hi. symmetry.
    apply agree_mod; lia. }
  rewrite (sync_forw_loop_low_bits _ _ _ x y A).
  destruct (Z.eq_dec y 0) as [E|N].
  - rewrite E, sync_forw_loop_zero, Z2Nat.id by lia.
    rewrite shifted_out by (exact Hs || lia). tauto.
  - split; [intros _; exact N|intros _].
    destruct (state_before (Z.to_nat (_degr g)) (_poly g) y ltac:(lia))
      as (s0 & Hs0 & E).
    rewrite Z2Nat.id in Hs0 by lia.
    rewrite (sync_forw_loop_any_start _ _ (_stat g) s0)
      by (rewrite Z2Nat.id by lia; assumption).
    rewrite (sync_forw_loop_follows _ _ _ _ E).
    apply (run_state_nonzero _ (_degr g)); try assumption; try lia.
    intros ->. rewrite run_bits_zero in E.
    apply bits_lsb_first_inj in E; rewrite ?Z2Nat.id by lia; lia.
Qed.

(** The state that [sync_back] leaves on a degree of at most 31 is zero
    only for a pattern whose [degree] low bits are zero. *)
Lemma sync_back_state_zero_iff (g : PRBSGenerator) (x : Z) :
  params_ok g ->
  back_state (Z.to_nat (_degr g)) (_poly g) x mod 2 ^ _degr g <> 0 <->
  Z.land x (_mask g) <> 0.
Proof.
  intros C. destruct (params_bounds g C) as (D & Hp & Hp0).
  assert (Q := pow2_pos (_degr g) ltac:(lia)).
  set (y := Z.land x (_mask g)).
  assert (Hy : 0 <= y < 2 ^ _degr g).
  { unfold y. rewrite (ok_mask g C), land_mask by lia.
    apply Z.mod_pos_bound. exact Q. }
  assert (A : agree (_degr g) x y).
  { unfold y. rewrite (ok_mask g C), land_mask by lia. intros i Hi.
    symmetry. apply agree_mod; lia. }
  assert (E : back_state (Z.to_nat (_degr g)) (_poly g) x mod 2 ^ _degr g =
              back_state (Z.to_nat (_degr g)) (_poly g) y mod 2 ^ _degr g).
  { apply agree_mod_eq; [lia|]. unfold back_state.
    rewrite (back_rounds_low_bits _ _ 0 x y)
      by (rewrite Z2Nat.id by lia; exact A).
    intros i Hi. rewrite !Z.lxor_spec, (A i Hi). reflexivity. }
  rewrite E. destruct (Z.eq_dec y 0) as [Y|N].
  - rewrite Y. unfold back_state. rewrite back_rounds_zero.
    change (Z.lxor 0 0) with 0. rewrite Z.mod_0_l by lia. tauto.
  - split; [intros _; exact N|intros _ Z0].
    assert (B := run_bits_back (_poly g) (Z.to_nat (_degr g)) y
                   (back_state (Z.to_nat (_degr g)) (_poly g) y
                    mod 2 ^ _degr g) ltac:(lia)).
    rewrite Z2Nat.id in B by lia.
    assert (D0 : 0 <= _degr g) by lia.
    specialize (B (agree_mod (_degr g) _ D0)).
    rewrite Z0, run_bits_zero in B.
    apply bits_lsb_first_inj in B; rewrite ?Z2Nat.id by lia; lia.
Qed.

Lemma sync_forw_loop_range (n : nat) (d p : Z) :
  forall s x, 0 <= d -> 0 <= p < 2 ^ d -> 0 <= s < 2 ^ d ->
    0 <= sync_forw_loop n p s x < 2 ^ d.
Proof.
  induction n as [|n IH]; intros s x Hd Hp Hs; cbn [sync_forw_loop];
    [exact Hs|].
  apply IH; try assumption.
  assert (R := shiftr1_range d s Hd Hs).
  destruct (Z.land x 1 =? 0); [exact R|].
  apply lxor_range; assumption.
Qed.

(** * The properties of the specification *)

(** A concrete register is shown to be configured by running [setPoly]. *)
Ltac by_setPoly p :=
  exists 33%nat, (PRBSGenerator_new 0), p, (setPoly_outcome p);
  split; [unfold p; lia|]; split; [vm_compute; reflexivity|]; split;
  [repeat split|vm_compute; reflexivity].

(** C4: for every non-zero 32-bit polynomial, [setPoly] ends and leaves as
    mask the smallest value [2^k - 1] that is not below the polynomial, as
    degree that [k], the bit length of the polynomial, as state the mask and
    as high bit [(mask >> 1) + 1]; for [0x41] the degree is 7 and the mask
    [0x7F]; a second call with the same polynomial, whatever the state has
    become, leaves the same register. *)
Theorem setPoly_derives_register (fuel : nat) (g : PRBSGenerator) (p : Z) :
  0 < p < 2 ^ 32 -> (33 <= fuel)%nat ->
  exists g1,
    setPoly fuel g p = Done g1 /\
    poly g1 = p /\
    degr g1 = Z.log2 p + 1 /\
    mask g1 = 2 ^ degr g1 - 1 /\
    p <= mask g1 /\
    (forall j, 0 <= j -> p <= 2 ^ j - 1 -> mask g1 <= 2 ^ j - 1) /\
    stat g1 = mask g1 /\
    hbit g1 = u32 (Z.shiftr (mask g1) 1 + 1) /\
    hbit g1 = Z.shiftr (mask g1) 1 + 1 /\
    (p = 0x41 -> degr g1 = 7 /\ mask g1 = 0x7F) /\
    setPoly fuel g1 p = Done g1 /\
    (forall s, setPoly fuel (set_stat g1 s) p = Done g1).
Proof.
  intros Hp Hf. exists (setPoly_outcome p).
  destruct (bitlen_bounds p Hp) as [[L0 L1] [P0 P1]].
  assert (Hh := hbit_of_mask (Z.log2 p + 1) ltac:(lia)).
  unfold poly, degr, mask, stat, hbit, setPoly_outcome.
  cbn [_poly _degr _mask _stat _hbit].
  split; [apply setPoly_ends; assumption|].
  assert (Hn := hbit_no_wrap (Z.log2 p + 1) ltac:(lia)).
  split; [reflexivity|]. split; [reflexivity|]. split; [reflexivity|].
  split; [lia|]. split.
  { intros j Hj Hle. destruct (Z_lt_le_dec j (Z.log2 p + 1)) as [G|G].
    - assert (2 ^ j <= 2 ^ Z.log2 p) by (apply Z.pow_le_mono_r; lia). lia.
    - assert (2 ^ (Z.log2 p + 1) <= 2 ^ j) by (apply Z.pow_le_mono_r; lia).
      lia. }
  split; [reflexivity|]. split; [symmetry; exact Hh|].
  split; [symmetry; exact Hn|]. split.
  { intros ->. split; reflexivity. }
  split; [|intros s]; apply setPoly_ends; assumption.
Qed.

Lemma setPoly_derives_register_witness :
  0 < G7 < 2 ^ 32 /\ (33 <= 33)%nat /\
  exists g1,
    setPoly 33 (PRBSGenerator_new 0) G7 = Done g1 /\
    poly g1 = G7 /\
    degr g1 = Z.log2 G7 + 1 /\
    mask g1 = 2 ^ degr g1 - 1 /\
    G7 <= mask g1 /\
    (forall j, 0 <= j -> G7 <= 2 ^ j - 1 -> mask g1 <= 2 ^ j - 1) /\
    stat g1 = mask g1 /\
    hbit g1 = u32 (Z.shiftr (mask g1) 1 + 1) /\
    hbit g1 = Z.shiftr (mask g1) 1 + 1 /\
    (G7 = 0x41 -> degr g1 = 7 /\ mask g1 = 0x7F) /\
    setPoly 33 g1 G7 = Done g1 /\
    (forall s, setPoly 33 (set_stat g1 s) G7 = Done g1).
Proof.
  split; [unfold G7; lia|]. split; [lia|].
  apply (setPoly_derives_register 33 (PRBSGenerator_new 0) G7);
    [unfold G7; lia|lia].
Defined.

(** C5: for a configured register in state [s], [step] returns [s & 1] and
    leaves the state [(s >> 1) ^ polynomial] when [s & 1] is 1 and [s >> 1]
    when it is 0; the other fields are as they were. *)
Theorem step_shifts_and_feeds_back (g : PRBSGenerator) :
  configured g ->
  step g =
  Done (Z.land (stat g) 1,
        set_stat g (if Z.land (stat g) 1 =? 1
                    then Z.lxor (Z.shiftr (stat g) 1) (poly g)
                    else Z.shiftr (stat g) 1)).
Proof.
  intros C. apply configured_params in C.
  destruct (params_bounds g C) as (_ & _ & Hp).
  rewrite step_eq by exact Hp. unfold stat, poly, next.
  rewrite land_1. destruct (Z.odd (_stat g)); cbn [Z.b2z Z.eqb Pos.eqb].
  - reflexivity.
  - rewrite Z.lxor_0_r. reflexivity.
Qed.

Lemma step_shifts_and_feeds_back_witness :
  configured reg7 /\
  step reg7 =
  Done (Z.land (stat reg7) 1,
        set_stat reg7 (if Z.land (stat reg7) 1 =? 1
                       then Z.lxor (Z.shiftr (stat reg7) 1) (poly reg7)
                       else Z.shiftr (stat reg7) 1)).
Proof.
  assert (C : configured reg7) by by_setPoly G7.
  split; [exact C|]. apply (step_shifts_and_feeds_back reg7 C).
Defined.

(** C7: on a configured register, [setStat] with a value that the mask
    sends to zero fails on its assertion; it does not return. *)
Theorem setStat_rejects_zero (g : PRBSGenerator) (s : Z) :
  configured g -> Z.land s (mask g) = 0 -> setStat g s = Aborted.
Proof.
  intros _ Hz. unfold setStat, mask in *.
  destruct (_poly g =? 0); [reflexivity|].
  cbn [set_stat _stat]. rewrite Hz. reflexivity.
Qed.

Lemma setStat_rejects_zero_witness :
  configured reg7 /\ Z.land 0x80 (mask reg7) = 0 /\
  setStat reg7 0x80 = Aborted.
Proof.
  assert (C : configured reg7) by by_setPoly G7.
  split; [exact C|]. split; [reflexivity|].
  apply (setStat_rejects_zero reg7 0x80 C). reflexivity.
Defined.

(** C8: the constructor sets the state, the polynomial, the mask and the
    degree to zero, and does not set the high bit: the member keeps the
    value [junk] that its storage held, which need not be zero. *)
Theorem constructor_leaves_hbit_unset :
  (forall junk : Z,
     stat (PRBSGenerator_new junk) = 0 /\ poly (PRBSGenerator_new junk) = 0 /\
     mask (PRBSGenerator_new junk) = 0 /\ degr (PRBSGenerator_new junk) = 0 /\
     hbit (PRBSGenerator_new junk) = junk) /\
  hbit (PRBSGenerator_new 0xDEADBEEF) <> 0.
Proof.
  split.
  - intros junk. repeat split.
  - unfold hbit. cbn [PRBSGenerator_new _hbit]. discriminate.
Qed.

(** C9: on a configured register each of [step], [setStat], [sync_forw],
    [sync_back], [crc_in] and [crc_out] leaves the polynomial, the mask, the
    degree and the high bit as they were: the register it leaves is the one
    it found with another state. *)
Theorem operations_keep_parameters (g : PRBSGenerator) :
  configured g ->
  (exists b s, step g = Done (b, set_stat g s)) /\
  (forall x, setStat g x = Aborted \/
             exists s, setStat g x = Done (set_stat g s)) /\
  (forall x, exists s, sync_forw g x = Done (set_stat g s)) /\
  (forall fuel x, sync_back fuel g x = OutOfFuel \/
                  exists s, sync_back fuel g x = Done (set_stat g s)) /\
  (forall b, exists s, crc_in g b = Done (set_stat g s)) /\
  (exists b s, crc_out g = Done (b, set_stat g s)).
Proof.
  intros C. apply configured_params in C.
  destruct (params_bounds g C) as (_ & _ & Hp).
  apply Z.eqb_neq in Hp.
  unfold step, setStat, sync_forw, sync_back, crc_in, crc_out. rewrite Hp.
  repeat split.
  - eexists _, _. reflexivity.
  - intros x. cbn [set_stat _stat].
    destruct (Z.land x (_mask g) =? 0); [left; reflexivity|].
    right. eexists. reflexivity.
  - intros x. eexists. reflexivity.
  - intros fuel x.
    destruct (sync_back_loop fuel (_poly g) x (i32 (_hbit g)) 0) as [s| |] eqn:E;
      cbn [bind].
    + right. eexists. reflexivity.
    + exfalso. revert E. generalize (i32 (_hbit g)), 0.
      induction fuel as [|fuel IH]; intros h s; cbn [sync_back_loop];
        [discriminate|].
      destruct (h =? 0); [discriminate|]. apply IH.
    + left. reflexivity.
  - intros b. eexists. reflexivity.
  - eexists _, _. reflexivity.
Qed.

Lemma operations_keep_parameters_witness :
  configured reg7 /\
  (exists b s, step reg7 = Done (b, set_stat reg7 s)) /\
  (forall x, setStat reg7 x = Aborted \/
             exists s, setStat reg7 x = Done (set_stat reg7 s)) /\
  (forall x, exists s, sync_forw reg7 x = Done (set_stat reg7 s)) /\
  (forall fuel x, sync_back fuel reg7 x = OutOfFuel \/
                  exists s, sync_back fuel reg7 x = Done (set_stat reg7 s)) /\
  (forall b, exists s, crc_in reg7 b = Done (set_stat reg7 s)) /\
  (exists b s, crc_out reg7 = Done (b, set_stat reg7 s)).
Proof.
  assert (C : configured reg7) by by_setPoly G7.
  split; [exact C|]. apply (operations_keep_parameters reg7 C).
Defined.

(** C10: [crc_in (0)] moves the register as [step] does: from the same
    register both leave the same register (and both fail on an unconfigured
    one); [step] returns the bit shifted out in addition. *)
Theorem crc_in_zero_is_step (g : PRBSGenerator) : crc_in g 0 = skip g.
Proof.
  unfold crc_in, skip, step. destruct (_poly g =? 0); [reflexivity|].
  cbn [bind snd]. change (u32 0) with 0. rewrite Z.lxor_0_r. reflexivity.
Qed.

(** C1: the claim holds on the registers of degree at most 31
    ([sync_back_then_steps]); on the register of [G32] the call of
    [sync_back] does not return, whatever the pattern: the probe bit [h] is
    an [int], [0x80000000] becomes negative in it, and the arithmetic shift
    [h >>= 1] never brings a negative [h] to zero. *)
Theorem sync_back_G32_never_returns :
  setPoly 33 (PRBSGenerator_new 0) G32 = Done reg32 /\
  forall (fuel : nat) (x : Z), sync_back fuel reg32 x = OutOfFuel.
Proof.
  split; [vm_compute; reflexivity|]. intros fuel x. unfold sync_back.
  change (_poly reg32 =? 0) with false.
  rewrite sync_back_loop_negative; [reflexivity|]. vm_compute. reflexivity.
Qed.

(** C2, as the specification has it, fails: after [setPoly (G7)] and
    [sync_forw (1)] the seven calls of [step] return seven ones, and the
    bits of 1 are a one and six zeros. *)
Lemma sync_forw_then_steps_G7 :
  configured reg7 /\ stat reg7 <> 0 /\ Z.land 1 (mask reg7) = 1 /\
  exists g1 g2 out,
    sync_forw reg7 1 = Done g1 /\
    steps (Z.to_nat (degr reg7)) g1 = Done (out, g2) /\
    out = [1; 1; 1; 1; 1; 1; 1] /\
    bits_lsb_first (Z.to_nat (degr reg7)) 1 = [1; 0; 0; 0; 0; 0; 0] /\
    out <> bits_lsb_first (Z.to_nat (degr reg7)) 1.
Proof.
  split; [by_setPoly G7|]. split; [discriminate|]. split; [reflexivity|].
  eexists _, _, _. split; [vm_compute; reflexivity|].
  split; [vm_compute; reflexivity|]. split; [reflexivity|].
  split; [vm_compute; reflexivity|]. discriminate.
Qed.

(** C2, amended: [sync_forw (x)] leaves the register where the calls of
    [step] that return [x] leave it.  For a configured register and a value
    [x] within the mask there is a state [s0] within the mask from which
    [degree] calls of [step] return the bits of [x], the lowest first, and
    [sync_forw (x)], from whatever state within the mask, leaves the
    register that those calls leave. *)
Theorem sync_forw_reaches_state_after (g : PRBSGenerator) (x : Z) :
  configured g -> Z.land x (mask g) = x ->
  exists s0 g2,
    Z.land s0 (mask g) = s0 /\
    steps (Z.to_nat (degr g)) (set_stat g s0) =
    Done (bits_lsb_first (Z.to_nat (degr g)) x, g2) /\
    sync_forw g x = Done g2.
Proof.
  unfold degr, mask. intros C Hx. apply configured_params in C.
  destruct (params_bounds g C) as (D & _ & Hp).
  destruct (state_before (Z.to_nat (_degr g)) (_poly g) x ltac:(lia))
    as (s0 & Hs0 & E).
  rewrite Z2Nat.id in Hs0 by lia.
  exists s0, (set_stat g (run_state (Z.to_nat (_degr g)) (_poly g) s0)).
  split; [apply mask_range; assumption|]. split.
  - rewrite steps_eq by exact Hp. cbn [set_stat _stat _poly]. rewrite E.
    reflexivity.
  - unfold sync_forw.
    destruct (Z.eqb_spec (_poly g) 0) as [|_]; [contradiction|].
    do 2 f_equal.
    rewrite (sync_forw_loop_any_start _ _ (_stat g) s0)
      by (rewrite Z2Nat.id by lia; (exact (ok_stat g C) || exact Hs0)).
    apply sync_forw_loop_follows. exact E.
Qed.

Lemma sync_forw_reaches_state_after_witness :
  configured reg7 /\ Z.land 0x2A (mask reg7) = 0x2A /\
  exists s0 g2,
    Z.land s0 (mask reg7) = s0 /\
    steps (Z.to_nat (degr reg7)) (set_stat reg7 s0) =
    Done (bits_lsb_first (Z.to_nat (degr reg7)) 0x2A, g2) /\
    sync_forw reg7 0x2A = Done g2.
Proof.
  assert (C : configured reg7) by by_setPoly G7.
  split; [exact C|]. split; [reflexivity|].
  apply (sync_forw_reaches_state_after reg7 0x2A C). reflexivity.
Defined.

(** C6, as the specification has it, fails: [crc_out] and [crc_in (1)] take
    the state 1 of a configured register to zero, and so do [sync_forw (0)]
    and [sync_back (0)]. *)
Lemma crc_out_reaches_zero :
  configured (set_stat reg7 1) /\ stat (set_stat reg7 1) <> 0 /\
  crc_out (set_stat reg7 1) = Done (1, set_stat reg7 0) /\
  crc_in (set_stat reg7 1) 1 = Done (set_stat reg7 0) /\
  sync_forw (set_stat reg7 1) 0 = Done (set_stat reg7 0) /\
  sync_back 32 (set_stat reg7 1) 0 = Done (set_stat reg7 0) /\
  stat (set_stat reg7 0) = 0.
Proof.
  split; [by_setPoly G7|]. split; [discriminate|].
  repeat split; vm_compute; reflexivity.
Qed.

(** C6, amended.  [setPoly] returns for every non-zero 32-bit polynomial,
    on any register, the one of the constructor included, and leaves a
    configured register with a non-zero state.  On a configured register
    with a non-zero state every operation below returns a configured
    register (the state within the mask), and the state it leaves is
    non-zero: always for [step]; for [setStat (x)] when [x & mask] is not
    zero; for [sync_forw (x)] exactly when [x & mask] is not zero; for
    [sync_back (x)], on a degree of at most 31, exactly when [x & mask] is
    not zero; for [crc_in (b)] with a bit 0 or 1 exactly when not both the
    state and the bit are 1; for [crc_out] exactly when the state is not
    1. *)
Theorem nonzero_state_preserved :
  (forall fuel g p, 0 < p < 2 ^ 32 ->
     ((33 <= fuel)%nat ->
      exists g1, setPoly fuel g p = Done g1 /\ configured g1 /\ stat g1 <> 0) /\
     (forall g1, setPoly fuel g p = Done g1 ->
        configured g1 /\ stat g1 <> 0)) /\
  (forall g, configured g -> stat g <> 0 ->
     (exists b g1, step g = Done (b, g1) /\ configured g1 /\ stat g1 <> 0) /\
     (forall x, Z.land x (mask g) <> 0 ->
        exists g1, setStat g x = Done g1 /\ configured g1 /\ stat g1 <> 0) /\
     (forall x,
        exists g1, sync_forw g x = Done g1 /\ configured g1 /\
                   (stat g1 <> 0 <-> Z.land x (mask g) <> 0)) /\
     (forall x, degr g <= 31 ->
        exists g1, sync_back 32 g x = Done g1 /\ configured g1 /\
                   (stat g1 <> 0 <-> Z.land x (mask g) <> 0)) /\
     (forall b, b = 0 \/ b = 1 ->
        exists g1, crc_in g b = Done g1 /\ configured g1 /\
                   (stat g1 <> 0 <-> ~ (stat g = 1 /\ b = 1))) /\
     (exists b g1, crc_out g = Done (b, g1) /\ configured g1 /\
                   (stat g1 <> 0 <-> stat g <> 1))).
Proof.
  split.
  { intros fuel g p Hr.
    destruct (bitlen_bounds p Hr) as [[L0 L1] _].
    assert (Q := pow2_split (Z.log2 p + 1) ltac:(lia)).
    assert (Q' := pow2_pos (Z.log2 p + 1 - 1) ltac:(lia)).
    assert (O : configured (setPoly_outcome p) /\
                stat (setPoly_outcome p) <> 0).
    { split; [|unfold stat; cbn [setPoly_outcome _stat]; lia].
      exists 33%nat, g, p, (setPoly_outcome p).
      split; [exact Hr|]. split; [apply setPoly_ends; [exact Hr|lia]|].
      split; [repeat split|]. cbn [setPoly_outcome _stat _mask].
      apply Z.land_diag. }
    split.
    - intros Hf. exists (setPoly_outcome p).
      split; [apply setPoly_ends; assumption|exact O].
    - intros g1 E. apply setPoly_returns in E; [|exact Hr]. subst g1.
      exact O. }
  unfold stat, mask, degr. intros g C Hz. apply configured_params in C.
  destruct (params_bounds g C) as (D & Hp & Hp0).
  assert (Hs := ok_stat g C).
  assert (P := pow2_pos (_degr g - 1) ltac:(lia)).
  assert (Q := pow2_pos (_degr g) ltac:(lia)).
  assert (R := shiftr1_range (_degr g) (_stat g) ltac:(lia) Hs).
  split; [|split; [|split; [|split; [|split]]]].
  - rewrite step_eq by exact Hp0. eexists _, _. split; [reflexivity|].
    cbn [set_stat _stat]. split.
    + apply configured_set_stat; [exact C|]. apply next_range; lia.
    + apply (next_nonzero (_degr g)); assumption || lia.
  - intros x Hx. unfold setStat.
    destruct (Z.eqb_spec (_poly g) 0) as [|_]; [contradiction|].
    cbn [set_stat _stat].
    destruct (Z.eqb_spec (Z.land x (_mask g)) 0) as [|_]; [contradiction|].
    eexists. split; [reflexivity|]. cbn [_stat]. split; [|exact Hx].
    apply configured_set_stat; [exact C|].
    rewrite (ok_mask g C), land_mask by lia.
    apply Z.mod_pos_bound. lia.
  - intros x. unfold sync_forw.
    destruct (Z.eqb_spec (_poly g) 0) as [|_]; [contradiction|].
    eexists. split; [reflexivity|]. cbn [set_stat _stat]. split.
    + apply configured_set_stat; [exact C|].
      apply sync_forw_loop_range; lia.
    + apply sync_forw_state_zero_iff. exact C.
  - intros x Hd. rewrite sync_back_eq by (assumption || lia).
    eexists. split; [reflexivity|]. cbn [set_stat _stat]. split.
    + apply configured_set_stat; [exact C|]. apply Z.mod_pos_bound. lia.
    + apply sync_back_state_zero_iff. exact C.
  - intros b Hb. rewrite crc_in_eq by assumption.
    eexists. split; [reflexivity|]. cbn [set_stat _stat]. split.
    + apply configured_set_stat; [exact C|].
      apply lxor_range; [lia|exact R|].
      destruct (xorb _ _); lia.
    + destruct (xorb (Z.odd (_stat g)) (b =? 1)) eqn:X.
      * split; [intros _ [E1 E2]|intros _].
        -- rewrite E1, E2 in X. discriminate.
        -- apply (fed_back_nonzero (_degr g)); assumption || lia.
      * rewrite Z.lxor_0_r. destruct (Z.eq_dec (_stat g) 1) as [E1|N1].
        -- rewrite E1 in X |- *. destruct Hb as [-> | ->]; [discriminate|].
           split; [intros N; exfalso; apply N; reflexivity|].
           intros N. exfalso. apply N. split; reflexivity.
        -- split; [intros _ [E1 _]; contradiction|intros _].
           apply halved_nonzero. lia.
  - unfold crc_out.
    destruct (Z.eqb_spec (_poly g) 0) as [|_]; [contradiction|].
    eexists _, _. split; [reflexivity|]. cbn [set_stat _stat]. split.
    + apply configured_set_stat; [exact C|exact R].
    + destruct (Z.eq_dec (_stat g) 1) as [E1|N1].
      * rewrite E1. split; [intros N; exfalso; apply N; reflexivity|].
        intros N. exfalso. apply N. reflexivity.
      * split; [intros _; exact N1|intros _]. apply halved_nonzero. lia.
Qed.

Lemma nonzero_state_preserved_witness :
  (0 < G7 < 2 ^ 32 /\ (33 <= 33)%nat /\
   exists g1, setPoly 33 (PRBSGenerator_new 0xDEADBEEF) G7 = Done g1 /\
              configured g1 /\ stat g1 <> 0) /\
  (configured reg7 /\ stat reg7 <> 0 /\
   (exists b g1, step reg7 = Done (b, g1) /\ configured g1 /\ stat g1 <> 0) /\
   (forall x, Z.land x (mask reg7) <> 0 ->
      exists g1, setStat reg7 x = Done g1 /\ configured g1 /\ stat g1 <> 0) /\
   (forall x,
      exists g1, sync_forw reg7 x = Done g1 /\ configured g1 /\
                 (stat g1 <> 0 <-> Z.land x (mask reg7) <> 0)) /\
   (forall x, degr reg7 <= 31 ->
      exists g1, sync_back 32 reg7 x = Done g1 /\ configured g1 /\
                 (stat g1 <> 0 <-> Z.land x (mask reg7) <> 0)) /\
   (forall b, b = 0 \/ b = 1 ->
      exists g1, crc_in reg7 b = Done g1 /\ configured g1 /\
                 (stat g1 <> 0 <-> ~ (stat reg7 = 1 /\ b = 1))) /\
   (exists b g1, crc_out reg7 = Done (b, g1) /\ configured g1 /\
                 (stat g1 <> 0 <-> stat reg7 <> 1))).
Proof.
  assert (C : configured reg7) by by_setPoly G7.
  assert (Hr : 0 < G7 < 2 ^ 32) by (unfold G7; lia).
  assert (Hf : (33 <= 33)%nat) by lia.
  assert (Hz : stat reg7 <> 0) by discriminate.
  split.
  - split; [exact Hr|]. split; [exact Hf|].
    exact (proj1 (proj1 nonzero_state_preserved 33%nat
                    (PRBSGenerator_new 0xDEADBEEF) G7 Hr) Hf).
  - split; [exact C|]. split; [exact Hz|].
    exact (proj2 nonzero_state_preserved reg7 C Hz).
Defined.



(** * Further properties of the code *)

(** ** Error behaviour *)

(** X1: on a register without polynomial, as the constructor leaves it,
    every operation fails on its first assertion, and so does [setPoly]
    with the polynomial 0; no fuel and no argument changes that. *)
Theorem unconfigured_operations_abort (g : PRBSGenerator) :
  poly g = 0 ->
  (forall fuel, setPoly fuel g 0 = Aborted) /\
  (forall x, setStat g x = Aborted) /\
  step g = Aborted /\
  (forall x, sync_forw g x = Aborted) /\
  (forall fuel x, sync_back fuel g x = Aborted) /\
  (forall b, crc_in g b = Aborted) /\
  crc_out g = Aborted /\
  (forall n, steps (S n) g = Aborted) /\
  (forall n, advance (N.succ n) g = Aborted).
Proof.
  unfold poly. intros Hp.
  assert (St : step g = Aborted) by (unfold step; rewrite Hp; reflexivity).
  unfold setStat, sync_forw, sync_back, crc_in, crc_out. rewrite Hp.
  repeat split; try reflexivity; try exact St.
  - intros n. cbn [steps]. rewrite St. reflexivity.
  - intros n. unfold advance. rewrite N.iter_succ_r. cbn [bind].
    unfold skip. rewrite St. cbn [bind].
    induction n as [|n IH] using N.peano_ind; [reflexivity|].
    rewrite N.iter_succ, IH. reflexivity.
Qed.

Lemma unconfigured_operations_abort_witness :
  poly (PRBSGenerator_new 0x40) = 0 /\
  (forall fuel, setPoly fuel (PRBSGenerator_new 0x40) 0 = Aborted) /\
  (forall x, setStat (PRBSGenerator_new 0x40) x = Aborted) /\
  step (PRBSGenerator_new 0x40) = Aborted /\
  (forall x, sync_forw (PRBSGenerator_new 0x40) x = Aborted) /\
  (forall fuel x, sync_back fuel (PRBSGenerator_new 0x40) x = Aborted) /\
  (forall b, crc_in (PRBSGenerator_new 0x40) b = Aborted) /\
  crc_out (PRBSGenerator_new 0x40) = Aborted /\
  (forall n, steps (S n) (PRBSGenerator_new 0x40) = Aborted) /\
  (forall n, advance (N.succ n) (PRBSGenerator_new 0x40) = Aborted).
Proof.
  split; [reflexivity|].
  apply (unconfigured_operations_abort (PRBSGenerator_new 0x40)).
  reflexivity.
Defined.

(** X2: on every configured register of degree 32, not only the one of
    [G32], [sync_back] does not return: the probe bit starts negative. *)
Theorem sync_back_degree_32_never_returns (g : PRBSGenerator) :
  configured g -> degr g = 32 ->
  forall (fuel : nat) (x : Z), sync_back fuel g x = OutOfFuel.
Proof.
  unfold degr. intros C Hd fuel x. apply configured_params in C.
  destruct (params_bounds g C) as (_ & _ & Hp).
  unfold sync_back. destruct (Z.eqb_spec (_poly g) 0) as [|_]; [contradiction|].
  rewrite (ok_hbit g C), Hd.
  rewrite sync_back_loop_negative; [reflexivity|]. vm_compute. reflexivity.
Qed.

Lemma sync_back_degree_32_never_returns_witness :
  configured (set_stat reg32 1) /\ degr (set_stat reg32 1) = 32 /\
  forall (fuel : nat) (x : Z), sync_back fuel (set_stat reg32 1) x = OutOfFuel.
Proof.
  assert (C : configured (set_stat reg32 1)) by by_setPoly G32.
  split; [exact C|]. split; [reflexivity|].
  apply (sync_back_degree_32_never_returns (set_stat reg32 1) C). reflexivity.
Defined.

Lemma sync_back_then_steps_witness :
  configured reg7 /\ degr reg7 <= 31 /\ Z.land 0x2A (mask reg7) = 0x2A /\
  exists g1 g2,
    sync_back 32 reg7 0x2A = Done g1 /\
    steps (Z.to_nat (degr reg7)) g1 =
    Done (bits_lsb_first (Z.to_nat (degr reg7)) 0x2A, g2).
Proof.
  assert (C : configured reg7) by by_setPoly G7.
  split; [exact C|]. split; [discriminate|]. split; [reflexivity|].
  apply (sync_back_then_steps reg7 0x2A C); [discriminate|reflexivity].
Defined.

(** ** The move of [step] *)

Lemma next_injective (d p a b : Z) :
  1 <= d -> 2 ^ (d - 1) <= p < 2 ^ d ->
  0 <= a < 2 ^ d -> 0 <= b < 2 ^ d -> next p a = next p b -> a = b.
Proof.
  intros Hd Hp Ha Hb E.
  assert (T : forall i, 0 <= i ->
                xorb (Z.testbit a (i + 1)) (Z.odd a && Z.testbit p i) =
                xorb (Z.testbit b (i + 1)) (Z.odd b && Z.testbit p i)).
  { intros i Hi. rewrite <- !testbit_next by exact Hi. rewrite E.
    reflexivity. }
  assert (O : Z.odd a = Z.odd b).
  { specialize (T (d - 1) ltac:(lia)).
    replace (d - 1 + 1) with d in T by lia.
    rewrite (testbit_above d a d), (testbit_above d b d) in T by lia.
    rewrite top_bit in T by assumption.
    destruct (Z.odd a), (Z.odd b); cbn in T; congruence. }
  apply Z.bits_inj'. intros i Hi. destruct (Z.eq_dec i 0) as [->|Hne].
  - rewrite !Z.bit0_odd. exact O.
  - specialize (T (i - 1) ltac:(lia)). rewrite O in T.
    replace (i - 1 + 1) with i in T by lia.
    destruct (Z.testbit a i), (Z.testbit b i), (Z.odd b),
      (Z.testbit p (i - 1)); cbn in T; congruence.
Qed.

(** X4: [step] loses nothing: two states within the mask from which [step]
    leaves the same state are the same state, so the sequence of states has
    no run-in before its cycle. *)
Theorem step_is_injective (g : PRBSGenerator) (s1 s2 b1 b2 : Z)
  (g' : PRBSGenerator) :
  configured g ->
  Z.land s1 (mask g) = s1 -> Z.land s2 (mask g) = s2 ->
  step (set_stat g s1) = Done (b1, g') ->
  step (set_stat g s2) = Done (b2, g') ->
  s1 = s2 /\ b1 = b2.
Proof.
  unfold mask. intros C H1 H2. apply configured_params in C.
  destruct (params_bounds g C) as (D & Hp & Hp0).
  apply (mask_range g s1 C) in H1. apply (mask_range g s2 C) in H2.
  rewrite !step_eq by exact Hp0. cbn [set_stat _stat _poly].
  intros [= <- <-] [= <- E].
  assert (s2 = s1)
    by (apply (next_injective (_degr g) (_poly g)); assumption || lia).
  subst s2. split; reflexivity.
Qed.

Lemma step_is_injective_witness :
  configured reg7 /\
  Z.land 0x7F (mask reg7) = 0x7F /\ Z.land 0x7F (mask reg7) = 0x7F /\
  step (set_stat reg7 0x7F) = Done (1, set_stat reg7 0x7E) /\
  step (set_stat reg7 0x7F) = Done (1, set_stat reg7 0x7E) /\
  0x7F = 0x7F /\ 1 = 1.
Proof.
  assert (C : configured reg7) by by_setPoly G7.
  assert (S : step (set_stat reg7 0x7F) = Done (1, set_stat reg7 0x7E))
    by (vm_compute; reflexivity).
  split; [exact C|]. split; [reflexivity|]. split; [reflexivity|].
  split; [exact S|]. split; [exact S|].
  apply (step_is_injective reg7 0x7F 0x7F 1 1 (set_stat reg7 0x7E) C);
    (reflexivity || exact S).
Defined.

(** X5: the bit that [step] returns is the top bit of the state it leaves:
    the state keeps the last [degree] returned bits in reach of the
    feedback. *)
Theorem step_returns_new_top_bit (g : PRBSGenerator) :
  configured g ->
  exists b g1,
    step g = Done (b, g1) /\
    Z.b2z (Z.testbit (stat g1) (degr g - 1)) = b.
Proof.
  unfold stat, degr. intros C. apply configured_params in C.
  destruct (params_bounds g C) as (D & Hp & Hp0).
  rewrite step_eq by exact Hp0. eexists _, _. split; [reflexivity|].
  cbn [set_stat _stat]. rewrite testbit_next by lia.
  replace (_degr g - 1 + 1) with (_degr g) by lia.
  rewrite (testbit_above (_degr g) (_stat g)) by (exact (ok_stat g C) || lia).
  rewrite top_bit by (assumption || lia).
  rewrite andb_true_r, xorb_false_l. reflexivity.
Qed.

Lemma step_returns_new_top_bit_witness :
  configured reg7 /\
  exists b g1,
    step reg7 = Done (b, g1) /\
    Z.b2z (Z.testbit (stat g1) (degr reg7 - 1)) = b.
Proof.
  assert (C : configured reg7) by by_setPoly G7.
  split; [exact C|]. apply (step_returns_new_top_bit reg7 C).
Defined.

Lemma run_zero (p : Z) (n : nat) :
  run_bits n p 0 = repeat 0 n /\ run_state n p 0 = 0.
Proof.
  induction n as [|n [IH1 IH2]]; [split; reflexivity|].
  cbn [run_bits run_state repeat]. rewrite next_zero, IH1, IH2.
  split; reflexivity.
Qed.

(** X6: the zero state is a trap: from it every call of [step] returns 0
    and leaves the zero state. *)
Theorem zero_state_is_absorbing (g : PRBSGenerator) (n : nat) :
  configured g -> stat g = 0 -> steps n g = Done (repeat 0 n, g).
Proof.
  unfold stat. intros C Hz. apply configured_params in C.
  destruct (params_bounds g C) as (_ & _ & Hp0).
  rewrite steps_eq by exact Hp0. rewrite Hz.
  destruct (run_zero (_poly g) n) as [-> ->].
  rewrite <- Hz, set_stat_same. reflexivity.
Qed.

Lemma zero_state_is_absorbing_witness :
  configured (set_stat reg7 0) /\ stat (set_stat reg7 0) = 0 /\
  steps 9 (set_stat reg7 0) = Done (repeat 0 9, set_stat reg7 0).
Proof.
  assert (C : configured (set_stat reg7 0)) by by_setPoly G7.
  split; [exact C|]. split; [reflexivity|].
  apply (zero_state_is_absorbing (set_stat reg7 0) 9 C). reflexivity.
Defined.

(** ** The two synchronisations *)

(** X7: [sync_back] undoes the reading of [degree] bits.  On a register of
    degree at most 31, when [degree] calls of [step] return the bits of [x],
    [sync_back (x)] leaves the register as it was before those calls. *)
Theorem sync_back_restores_state (g : PRBSGenerator) (x : Z)
  (g' : PRBSGenerator) :
  configured g -> degr g <= 31 ->
  steps (Z.to_nat (degr g)) g =
  Done (bits_lsb_first (Z.to_nat (degr g)) x, g') ->
  sync_back 32 g x = Done g.
Proof.
  unfold degr. intros C Hd E. apply configured_params in C.
  destruct (params_bounds g C) as (D & _ & Hp0).
  rewrite steps_eq in E by exact Hp0. injection E as E _.
  rewrite sync_back_eq by (assumption || lia).
  transitivity (Done (set_stat g (_stat g)));
    [|rewrite set_stat_same; reflexivity].
  do 2 f_equal.
  apply (agree_eq (_degr g)); [lia| |exact (ok_stat g C)|].
  - apply Z.mod_pos_bound. apply pow2_pos. lia.
  - rewrite <- (Z2Nat.id (_degr g)) at 1 by lia.
    apply (run_bits_agree (_poly g)). rewrite E.
    apply run_bits_back; [lia|]. rewrite Z2Nat.id by lia.
    apply agree_mod. lia.
Qed.

Lemma sync_back_restores_state_witness :
  configured (set_stat reg7 0x7E) /\ degr (set_stat reg7 0x7E) <= 31 /\
  steps (Z.to_nat (degr (set_stat reg7 0x7E))) (set_stat reg7 0x7E) =
  Done (bits_lsb_first (Z.to_nat (degr (set_stat reg7 0x7E))) 0x2A,
        set_stat reg7 0x2A) /\
  sync_back 32 (set_stat reg7 0x7E) 0x2A = Done (set_stat reg7 0x7E).
Proof.
  assert (C : configured (set_stat reg7 0x7E)) by by_setPoly G7.
  assert (S : steps (Z.to_nat (degr (set_stat reg7 0x7E)))
                (set_stat reg7 0x7E) =
              Done (bits_lsb_first (Z.to_nat (degr (set_stat reg7 0x7E)))
                      0x2A, set_stat reg7 0x2A))
    by (vm_compute; reflexivity).
  split; [exact C|]. split; [discriminate|]. split; [exact S|].
  apply (sync_back_restores_state (set_stat reg7 0x7E) 0x2A
           (set_stat reg7 0x2A) C); [discriminate|exact S].
Defined.

(** X8: [sync_forw] locks a receiver onto a transmitter.  When [degree]
    calls of [step] on a register [t] return the bits of [x], [sync_forw
    (x)] on any configured register [r] with the polynomial of [t] leaves
    [r] in the state those calls left [t] in. *)
Theorem sync_forw_tracks_transmitter (t r : PRBSGenerator) (x : Z)
  (t' : PRBSGenerator) :
  configured t -> configured r -> same_poly r t ->
  steps (Z.to_nat (degr t)) t =
  Done (bits_lsb_first (Z.to_nat (degr t)) x, t') ->
  sync_forw r x = Done (set_stat r (stat t')).
Proof.
  unfold degr, stat. intros Ct Cr (Ep & _ & _ & Ed) E.
  apply configured_params in Ct, Cr.
  destruct (params_bounds t Ct) as (D & _ & Hp0).
  rewrite steps_eq in E by exact Hp0. injection E as E <-.
  cbn [set_stat _stat]. unfold sync_forw. rewrite Ep, Ed.
  destruct (Z.eqb_spec (_poly t) 0) as [|_]; [contradiction|].
  do 2 f_equal.
  rewrite (sync_forw_loop_any_start _ _ (_stat r) (_stat t)).
  - apply sync_forw_loop_follows. exact E.
  - rewrite Z2Nat.id by lia. rewrite <- Ed. exact (ok_stat r Cr).
  - rewrite Z2Nat.id by lia. exact (ok_stat t Ct).
Qed.

Lemma sync_forw_tracks_transmitter_witness :
  configured (set_stat reg7 0x7E) /\ configured reg7 /\
  same_poly reg7 (set_stat reg7 0x7E) /\
  steps (Z.to_nat (degr (set_stat reg7 0x7E))) (set_stat reg7 0x7E) =
  Done (bits_lsb_first (Z.to_nat (degr (set_stat reg7 0x7E))) 0x2A,
        set_stat reg7 0x2A) /\
  sync_forw reg7 0x2A = Done (set_stat reg7 (stat (set_stat reg7 0x2A))).
Proof.
  assert (Ct : configured (set_stat reg7 0x7E)) by by_setPoly G7.
  assert (Cr : configured reg7) by by_setPoly G7.
  assert (P : same_poly reg7 (set_stat reg7 0x7E)) by (repeat split).
  assert (S : steps (Z.to_nat (degr (set_stat reg7 0x7E)))
                (set_stat reg7 0x7E) =
              Done (bits_lsb_first (Z.to_nat (degr (set_stat reg7 0x7E)))
                      0x2A, set_stat reg7 0x2A))
    by (vm_compute; reflexivity).
  split; [exact Ct|]. split; [exact Cr|]. split; [exact P|].
  split; [exact S|].
  apply (sync_forw_tracks_transmitter (set_stat reg7 0x7E) reg7 0x2A
           (set_stat reg7 0x2A) Ct Cr P S).
Defined.

(** X9: the two synchronisations read the [degree] low bits of their
    argument and nothing else: a pattern and its masked value leave the
    same register ([sync_back] on a degree of at most 31). *)
Theorem sync_reads_low_bits (g : PRBSGenerator) (x : Z) :
  configured g ->
  sync_forw g x = sync_forw g (Z.land x (mask g)) /\
  (degr g <= 31 -> sync_back 32 g x = sync_back 32 g (Z.land x (mask g))).
Proof.
  unfold mask, degr. intros C. apply configured_params in C.
  destruct (params_bounds g C) as (D & _ & Hp0).
  assert (A : agree (_degr g) x (Z.land x (_mask g))).
  { rewrite (ok_mask g C), land_mask by lia. intros i Hi. symmetry.
    apply agree_mod; lia. }
  split.
  - unfold sync_forw. destruct (_poly g =? 0); [reflexivity|].
    do 2 f_equal. apply sync_forw_loop_low_bits.
    rewrite Z2Nat.id by lia. exact A.
  - intros Hd. rewrite !sync_back_eq by (assumption || lia).
    do 2 f_equal. apply agree_mod_eq; [lia|]. unfold back_state.
    rewrite (back_rounds_low_bits _ _ 0 x (Z.land x (_mask g)))
      by (rewrite Z2Nat.id by lia; exact A).
    intros i Hi. rewrite !Z.lxor_spec, (A i Hi). reflexivity.
Qed.

Lemma sync_reads_low_bits_witness :
  configured reg7 /\
  sync_forw reg7 0xABCD = sync_forw reg7 (Z.land 0xABCD (mask reg7)) /\
  (degr reg7 <= 31 ->
   sync_back 32 reg7 0xABCD = sync_back 32 reg7 (Z.land 0xABCD (mask reg7))).
Proof.
  assert (C : configured reg7) by by_setPoly G7.
  split; [exact C|]. apply (sync_reads_low_bits reg7 0xABCD C).
Defined.

(** X10: the zero pattern gives the zero state: [sync_forw (0)] shifts the
    whole state out, and [sync_back (0)] (degree at most 31) builds the
    state that returns zeros, the trap of [step]. *)
Theorem sync_with_zero_pattern (g : PRBSGenerator) :
  configured g ->
  sync_forw g 0 = Done (set_stat g 0) /\
  (degr g <= 31 -> sync_back 32 g 0 = Done (set_stat g 0)).
Proof.
  unfold degr. intros C. apply configured_params in C.
  destruct (params_bounds g C) as (D & _ & Hp0). split.
  - unfold sync_forw. destruct (Z.eqb_spec (_poly g) 0) as [|_];
      [contradiction|].
    rewrite sync_forw_loop_zero, Z2Nat.id by lia.
    rewrite Z.shiftr_div_pow2, Z.div_small by (exact (ok_stat g C) || lia).
    reflexivity.
  - intros Hd. rewrite sync_back_eq by (assumption || lia).
    unfold back_state. rewrite back_rounds_zero. reflexivity.
Qed.

Lemma sync_with_zero_pattern_witness :
  configured reg7 /\
  sync_forw reg7 0 = Done (set_stat reg7 0) /\
  (degr reg7 <= 31 -> sync_back 32 reg7 0 = Done (set_stat reg7 0)).
Proof.
  assert (C : configured reg7) by by_setPoly G7.
  split; [exact C|]. apply (sync_with_zero_pattern reg7 C).
Defined.

(** ** The CRC pair *)

Lemma i32_eq_0 (z : Z) : 0 <= z < 2 ^ 32 -> (i32 z =? 0) = (z =? 0).
Proof.
  intros Hz. unfold i32. change (2 ^ 32) with 4294967296 in *.
  change (2 ^ 31) with 2147483648.
  destruct (Z.eqb_spec z 0) as [->|Hne]; [reflexivity|].
  apply Z.eqb_neq. intros E.
  destruct (Z_lt_le_dec z 2147483648) as [L|L].
  - rewrite Z.mod_small in E by lia. lia.
  - replace (z + 2147483648) with (z - 2147483648 + 1 * 4294967296) in E
      by lia.
    rewrite Z.mod_add, Z.mod_small in E by lia. lia.
Qed.

Lemma u32_eq_bit (b : Z) (o : bool) :
  - 2 ^ 31 <= b < 2 ^ 31 -> (u32 b = Z.b2z o <-> b = Z.b2z o).
Proof.
  intros Hb. unfold u32. change (2 ^ 32) with 4294967296.
  change (2 ^ 31) with 2147483648 in Hb.
  destruct (Z_lt_le_dec b 0) as [L|L].
  - replace b with (b + 4294967296 + (-1) * 4294967296) at 1 by lia.
    rewrite Z.mod_add, Z.mod_small by lia. destruct o; cbn [Z.b2z]; lia.
  - rewrite Z.mod_small by lia. reflexivity.
Qed.

(** X11: [crc_in] compares its argument with the low bit of the state.  For
    every [int] value [b], also outside 0 and 1, [crc_in (b)] only shifts
    when [b] equals that bit, and shifts and feeds the polynomial back in
    every other case. *)
Theorem crc_in_feeds_back_on_mismatch (g : PRBSGenerator) (b : Z) :
  configured g -> - 2 ^ 31 <= b < 2 ^ 31 ->
  crc_in g b =
  Done (set_stat g (if b =? Z.land (stat g) 1
                    then Z.shiftr (stat g) 1
                    else Z.lxor (Z.shiftr (stat g) 1) (poly g))).
Proof.
  unfold stat, poly. intros C Hb. apply configured_params in C.
  destruct (params_bounds g C) as (_ & _ & Hp0). unfold crc_in.
  destruct (Z.eqb_spec (_poly g) 0) as [|_]; [contradiction|].
  rewrite land_1.
  assert (U : 0 <= u32 b < 2 ^ 32)
    by (apply Z.mod_pos_bound; reflexivity).
  assert (B : 0 <= Z.b2z (Z.odd (_stat g)) < 2 ^ 32)
    by (destruct (Z.odd (_stat g)); cbn [Z.b2z]; split; lia || reflexivity).
  rewrite i32_eq_0 by (apply lxor_range; lia || assumption).
  destruct (Z.eqb_spec b (Z.b2z (Z.odd (_stat g)))) as [E|N].
  - apply (u32_eq_bit b _ Hb) in E. rewrite E, Z.lxor_nilpotent.
    reflexivity.
  - destruct (Z.eqb_spec (Z.lxor (Z.b2z (Z.odd (_stat g))) (u32 b)) 0)
      as [E|_]; [|reflexivity].
    apply Z.lxor_eq in E. symmetry in E.
    apply (u32_eq_bit b _ Hb) in E. contradiction.
Qed.

Lemma crc_in_feeds_back_on_mismatch_witness :
  configured reg7 /\ - 2 ^ 31 <= 2 < 2 ^ 31 /\
  crc_in reg7 2 =
  Done (set_stat reg7 (if 2 =? Z.land (stat reg7) 1
                       then Z.shiftr (stat reg7) 1
                       else Z.lxor (Z.shiftr (stat reg7) 1) (poly reg7))).
Proof.
  assert (C : configured reg7) by by_setPoly G7.
  split; [exact C|]. split; [split; [discriminate|reflexivity]|].
  apply (crc_in_feeds_back_on_mismatch reg7 2 C).
  split; [discriminate|reflexivity].
Defined.

Lemma crc_out_eq (g : PRBSGenerator) :
  _poly g <> 0 ->
  crc_out g =
  Done (Z.b2z (Z.odd (_stat g)), set_stat g (Z.shiftr (_stat g) 1)).
Proof.
  intros Hp. unfold crc_out.
  destruct (Z.eqb_spec (_poly g) 0) as [|_]; [contradiction|].
  rewrite land_1. destruct (Z.odd (_stat g)); reflexivity.
Qed.

Lemma crc_outs_eq (n : nat) :
  forall g, _poly g <> 0 ->
    crc_outs n g =
    Done (bits_lsb_first n (_stat g),
          set_stat g (Z.shiftr (_stat g) (Z.of_nat n))).
Proof.
  induction n as [|n IH]; intros g Hp.
  - cbn [crc_outs]. rewrite Z.shiftr_0_r, set_stat_same. reflexivity.
  - cbn [crc_outs]. rewrite crc_out_eq by exact Hp. cbn [bind fst snd].
    rewrite IH by exact Hp. cbn [bind fst snd set_stat _stat].
    rewrite bits_lsb_first_S, Z.shiftr_shiftr by lia.
    replace (1 + Z.of_nat n) with (Z.of_nat (S n)) by lia. reflexivity.
Qed.

Lemma crc_ins_own_bits (n : nat) :
  forall g, _poly g <> 0 ->
    crc_ins (bits_lsb_first n (_stat g)) g =
    Done (set_stat g (Z.shiftr (_stat g) (Z.of_nat n))).
Proof.
  induction n as [|n IH]; intros g Hp.
  - cbn [bits_lsb_first seq map crc_ins].
    rewrite Z.shiftr_0_r, set_stat_same. reflexivity.
  - rewrite bits_lsb_first_S. cbn [crc_ins].
    rewrite crc_in_eq
      by (exact Hp || (destruct (Z.odd (_stat g)); [right|left]; reflexivity)).
    cbn [bind].
    replace (xorb (Z.odd (_stat g)) (Z.b2z (Z.odd (_stat g)) =? 1))
      with false by (destruct (Z.odd (_stat g)); reflexivity).
    rewrite Z.lxor_0_r.
    assert (I := IH (set_stat g (Z.shiftr (_stat g) 1)) Hp).
    cbn [set_stat _stat] in I. cbn [set_stat]. rewrite I.
    cbn [_poly _mask _hbit _degr]. rewrite Z.shiftr_shiftr by lia.
    replace (1 + Z.of_nat n) with (Z.of_nat (S n)) by lia. reflexivity.
Qed.

(** X12: [degree] calls of [crc_out] read the register out: they return
    the bits of the state, the lowest first, and leave the zero state. *)
Theorem crc_out_reads_state_out (g : PRBSGenerator) :
  configured g ->
  crc_outs (Z.to_nat (degr g)) g =
  Done (bits_lsb_first (Z.to_nat (degr g)) (stat g), set_stat g 0).
Proof.
  unfold degr, stat. intros C. apply configured_params in C.
  destruct (params_bounds g C) as (D & _ & Hp0).
  rewrite crc_outs_eq by exact Hp0. rewrite Z2Nat.id by lia.
  rewrite shifted_out by (exact (ok_stat g C) || lia). reflexivity.
Qed.

Lemma crc_out_reads_state_out_witness :
  configured reg7 /\
  crc_outs (Z.to_nat (degr reg7)) reg7 =
  Done (bits_lsb_first (Z.to_nat (degr reg7)) (stat reg7), set_stat reg7 0).
Proof.
  assert (C : configured reg7) by by_setPoly G7.
  split; [exact C|]. apply (crc_out_reads_state_out reg7 C).
Defined.

(** X13: the check of a CRC: feeding the register its own content through
    [crc_in], the bits that [crc_out] would return and in that order,
    leaves the zero state. *)
Theorem crc_in_of_own_remainder_is_zero (g : PRBSGenerator) :
  configured g ->
  crc_ins (bits_lsb_first (Z.to_nat (degr g)) (stat g)) g =
  Done (set_stat g 0).
Proof.
  unfold degr, stat. intros C. apply configured_params in C.
  destruct (params_bounds g C) as (D & _ & Hp0).
  rewrite crc_ins_own_bits by exact Hp0. rewrite Z2Nat.id by lia.
  rewrite shifted_out by (exact (ok_stat g C) || lia). reflexivity.
Qed.

Lemma crc_in_of_own_remainder_is_zero_witness :
  configured reg7 /\
  crc_ins (bits_lsb_first (Z.to_nat (degr reg7)) (stat reg7)) reg7 =
  Done (set_stat reg7 0).
Proof.
  assert (C : configured reg7) by by_setPoly G7.
  split; [exact C|]. apply (crc_in_of_own_remainder_is_zero reg7 C).
Defined.

(** ** The state stays within the mask *)

(** X14: whatever the arguments, each operation that returns on a
    configured register leaves a configured register: the state it leaves
    lies within the mask, also when it is zero.  [step], [sync_forw],
    [crc_in] and [crc_out] always return. *)
Theorem operations_keep_state_within_mask (g : PRBSGenerator) :
  configured g ->
  (exists b g1, step g = Done (b, g1) /\ configured g1) /\
  (forall x g1, setStat g x = Done g1 -> configured g1) /\
  (forall x, exists g1, sync_forw g x = Done g1 /\ configured g1) /\
  (forall fuel x g1, sync_back fuel g x = Done g1 -> configured g1) /\
  (forall b, exists g1, crc_in g b = Done g1 /\ configured g1) /\
  (exists b g1, crc_out g = Done (b, g1) /\ configured g1).
Proof.
  intros C. apply configured_params in C.
  destruct (params_bounds g C) as (D & Hp & Hp0).
  assert (Hs := ok_stat g C).
  assert (P := pow2_pos (_degr g - 1) ltac:(lia)).
  assert (Q := pow2_pos (_degr g) ltac:(lia)).
  assert (M : forall z, 0 <= Z.land z (_mask g) < 2 ^ _degr g).
  { intros z. rewrite (ok_mask g C), land_mask by lia.
    apply Z.mod_pos_bound. exact Q. }
  assert (R := shiftr1_range (_degr g) (_stat g) ltac:(lia) Hs).
  split; [|split; [|split; [|split; [|split]]]].
  - rewrite step_eq by exact Hp0. eexists _, _. split; [reflexivity|].
    apply configured_set_stat; [exact C|]. apply next_range; lia.
  - intros x g1. unfold setStat.
    destruct (_poly g =? 0); [discriminate|]. cbn [set_stat _stat].
    destruct (Z.land x (_mask g) =? 0); [discriminate|].
    intros [= <-]. apply configured_set_stat; [exact C|apply M].
  - intros x. unfold sync_forw.
    destruct (Z.eqb_spec (_poly g) 0) as [|_]; [contradiction|].
    eexists. split; [reflexivity|].
    apply configured_set_stat; [exact C|].
    apply sync_forw_loop_range; lia.
  - intros fuel x g1. unfold sync_back.
    destruct (_poly g =? 0); [discriminate|].
    destruct (sync_back_loop fuel (_poly g) x (i32 (_hbit g)) 0);
      cbn [bind]; try discriminate.
    intros [= <-]. apply configured_set_stat; [exact C|apply M].
  - intros b. unfold crc_in.
    destruct (Z.eqb_spec (_poly g) 0) as [|_]; [contradiction|].
    eexists. split; [reflexivity|].
    apply configured_set_stat; [exact C|].
    destruct (_ =? 0); [exact R|]. apply lxor_range; lia.
  - unfold crc_out.
    destruct (Z.eqb_spec (_poly g) 0) as [|_]; [contradiction|].
    eexists _, _. split; [reflexivity|].
    apply configured_set_stat; [exact C|exact R].
Qed.

Lemma operations_keep_state_within_mask_witness :
  configured reg7 /\
  (exists b g1, step reg7 = Done (b, g1) /\ configured g1) /\
  (forall x g1, setStat reg7 x = Done g1 -> configured g1) /\
  (forall x, exists g1, sync_forw reg7 x = Done g1 /\ configured g1) /\
  (forall fuel x g1, sync_back fuel reg7 x = Done g1 -> configured g1) /\
  (forall b, exists g1, crc_in reg7 b = Done g1 /\ configured g1) /\
  (exists b g1, crc_out reg7 = Done (b, g1) /\ configured g1).
Proof.
  assert (C : configured reg7) by by_setPoly G7.
  split; [exact C|]. apply (operations_keep_state_within_mask reg7 C).
Defined.

(** ** Every state of a catalogued polynomial *)








(** ** The CRC is linear *)

Lemma crc_ins_eq (bs : list Z) :
  forall g, _poly g <> 0 -> Forall is_bit bs ->
    crc_ins bs g = Done (set_stat g (crc_run (_poly g) (_stat g) bs)).
Proof.
  induction bs as [|b bs IH]; intros g Hp Hb; cbn [crc_ins crc_run].
  - rewrite set_stat_same. reflexivity.
  - inversion Hb as [|? ? B1 B2]; subst.
    rewrite crc_in_eq by assumption. cbn [bind].
    rewrite IH by assumption. reflexivity.
Qed.

Lemma crc_move_lxor (p s1 s2 b1 b2 : Z) :
  is_bit b1 -> is_bit b2 ->
  crc_move p (Z.lxor s1 s2) (Z.lxor b1 b2) =
  Z.lxor (crc_move p s1 b1) (crc_move p s2 b2).
Proof.
  intros [-> | ->] [-> | ->]; unfold crc_move;
    rewrite odd_lxor, Z.shiftr_lxor;
    change (Z.lxor 0 0) with 0; change (Z.lxor 0 1) with 1;
    change (Z.lxor 1 0) with 1; change (Z.lxor 1 1) with 0;
    change (0 =? 1) with false; change (1 =? 1) with true;
    destruct (Z.odd s1), (Z.odd s2); cbn [xorb]; xor_bits.
Qed.

Lemma crc_run_lxor (p : Z) (m1 : list Z) :
  forall m2 s1 s2,
    length m1 = length m2 -> Forall is_bit m1 -> Forall is_bit m2 ->
    crc_run p (Z.lxor s1 s2) (xor_lists m1 m2) =
    Z.lxor (crc_run p s1 m1) (crc_run p s2 m2).
Proof.
  induction m1 as [|b1 m1 IH]; intros [|b2 m2] s1 s2 L H1 H2;
    try discriminate; [reflexivity|].
  inversion H1; inversion H2; subst. injection L as L.
  cbn [xor_lists combine map fst snd crc_run].
  rewrite crc_move_lxor by assumption. apply IH; assumption.
Qed.

Lemma xor_lists_bits (m1 : list Z) :
  forall m2, Forall is_bit m1 -> Forall is_bit m2 ->
    Forall is_bit (xor_lists m1 m2).
Proof.
  induction m1 as [|b1 m1 IH]; intros [|b2 m2] H1 H2;
    try (constructor; fail).
  inversion H1 as [|? ? B1 ?]; inversion H2 as [|? ? B2 ?]; subst.
  cbn [xor_lists combine map fst snd]. constructor.
  - destruct B1 as [-> | ->], B2 as [-> | ->]; [left|right|right|left];
      reflexivity.
  - apply IH; assumption.
Qed.

(** X16: the remainder is linear in the state and the message: for two
    messages of bits of the same length, fed through [crc_in] from the
    states [s1] and [s2], the exclusive or of the two states left is the
    state that the exclusive or of the messages leaves from the exclusive
    or of the states.  So an error pattern changes the remainder by the
    remainder of the pattern alone. *)
Theorem crc_is_linear (g : PRBSGenerator) (m1 m2 : list Z) (s1 s2 : Z) :
  configured g -> length m1 = length m2 ->
  Forall is_bit m1 -> Forall is_bit m2 ->
  exists t1 t2,
    crc_ins m1 (set_stat g s1) = Done (set_stat g t1) /\
    crc_ins m2 (set_stat g s2) = Done (set_stat g t2) /\
    crc_ins (xor_lists m1 m2) (set_stat g (Z.lxor s1 s2)) =
    Done (set_stat g (Z.lxor t1 t2)).
Proof.
  intros C L H1 H2. apply configured_params in C.
  destruct (params_bounds g C) as (_ & _ & Hp0).
  exists (crc_run (_poly g) s1 m1), (crc_run (_poly g) s2 m2).
  rewrite !crc_ins_eq
    by (assumption || (apply xor_lists_bits; assumption)).
  cbn [set_stat _stat _poly]. rewrite crc_run_lxor by assumption.
  repeat split.
Qed.

Lemma crc_is_linear_witness :
  configured reg7 /\ length [1; 0; 1] = length [0; 1; 1] /\
  Forall is_bit [1; 0; 1] /\ Forall is_bit [0; 1; 1] /\
  exists t1 t2,
    crc_ins [1; 0; 1] (set_stat reg7 0x7F) = Done (set_stat reg7 t1) /\
    crc_ins [0; 1; 1] (set_stat reg7 0x15) = Done (set_stat reg7 t2) /\
    crc_ins (xor_lists [1; 0; 1] [0; 1; 1])
      (set_stat reg7 (Z.lxor 0x7F 0x15)) =
    Done (set_stat reg7 (Z.lxor t1 t2)).
Proof.
  assert (C : configured reg7) by by_setPoly G7.
  assert (B1 : Forall is_bit [1; 0; 1])
    by (repeat constructor; ((left; reflexivity) || (right; reflexivity))).
  assert (B2 : Forall is_bit [0; 1; 1])
    by (repeat constructor; ((left; reflexivity) || (right; reflexivity))).
  split; [exact C|]. split; [reflexivity|]. split; [exact B1|].
  split; [exact B2|].
  apply (crc_is_linear reg7 [1; 0; 1] [0; 1; 1] 0x7F 0x15 C eq_refl B1 B2).
Defined.
